(** * fleek: the configuration core ([internal/core/config.go])

    A shallow embedding of the configuration model of fleek, of its
    validation rules, of the four mutation operations on the package and
    program lists, and of the persistence functions ([Save],
    [WriteSampleConfig], [Eject]), followed by the properties of these
    functions.

    Go strings are [string]; slices are [list]; the [Aliases] map is a
    [gmap string string]; the file system is a finite map from paths to
    file contents.  A Go method with a pointer receiver that returns
    [error] is a computation over a state made of the receiver and the
    file system; it answers [inl err] or [inr tt] (Go's [nil]) together
    with the state it leaves behind, which is kept when an error is
    returned. *)

From stdpp Require Import base option list strings gmap.

(** ** Package-level variables *)

Definition operatingSystems : list string := ["linux"; "darwin"].
Definition architectures : list string := ["aarch64"; "x86_64"].
Definition shells : list string := ["bash"; "zsh"].
Definition blingLevels : list string := ["low"; "default"; "high"].

(** ** Data model *)

Record GitConfig := mkGitConfig {
  GitConfig_Name : string;
  GitConfig_Email : string
}.

Record System := mkSystem {
  Hostname : string;
  Username : string;
  Arch : string;
  OS : string;
  Git : GitConfig
}.

Record Config := mkConfig {
  FlakeDir : string;
  Unfree : bool;
  Shell : string;
  Bling : string;
  Repository : string;
  Name : string;
  Packages : list string;
  Programs : list string;
  Aliases : gmap string string;
  Paths : list string;
  Ejected : bool;
  Systems : list System
}.

(** Field assignments: [c.Packages = v], [c.Programs = v] and
    [c.Ejected = v] of the operations, and those that build the
    configurations the operations are run on. *)

Definition set_Packages (v : list string) (c : Config) : Config :=
  mkConfig (FlakeDir c) (Unfree c) (Shell c) (Bling c) (Repository c) (Name c)
           v (Programs c) (Aliases c) (Paths c) (Ejected c) (Systems c).

Definition set_Programs (v : list string) (c : Config) : Config :=
  mkConfig (FlakeDir c) (Unfree c) (Shell c) (Bling c) (Repository c) (Name c)
           (Packages c) v (Aliases c) (Paths c) (Ejected c) (Systems c).

Definition set_Ejected (v : bool) (c : Config) : Config :=
  mkConfig (FlakeDir c) (Unfree c) (Shell c) (Bling c) (Repository c) (Name c)
           (Packages c) (Programs c) (Aliases c) (Paths c) v (Systems c).

Definition set_Shell (v : string) (c : Config) : Config :=
  mkConfig (FlakeDir c) (Unfree c) v (Bling c) (Repository c) (Name c)
           (Packages c) (Programs c) (Aliases c) (Paths c) (Ejected c) (Systems c).

Definition set_FlakeDir (v : string) (c : Config) : Config :=
  mkConfig v (Unfree c) (Shell c) (Bling c) (Repository c) (Name c)
           (Packages c) (Programs c) (Aliases c) (Paths c) (Ejected c) (Systems c).

Definition set_Bling (v : string) (c : Config) : Config :=
  mkConfig (FlakeDir c) (Unfree c) (Shell c) v (Repository c) (Name c)
           (Packages c) (Programs c) (Aliases c) (Paths c) (Ejected c) (Systems c).

Definition set_Systems (v : list System) (c : Config) : Config :=
  mkConfig (FlakeDir c) (Unfree c) (Shell c) (Bling c) (Repository c) (Name c)
           (Packages c) (Programs c) (Aliases c) (Paths c) (Ejected c) v.

(** ** Errors

    The package-level error values, the error built in
    [WriteSampleConfig], the wrapping done by [fmt.Errorf], and the errors
    of the operating system and of the collaborators. *)

Inductive Error : Type :=
| ErrMissingFlakeDir
| ErrInvalidShell
| ErrInvalidBling
| ErrorInvalidArch
| ErrInvalidOperatingSystem
| ErrPackageNotFound
| ErrProgramNotFound
| ErrRefuseOverwrite
| ErrMakingFlakeDir (cause : Error)
| ErrNotExist
| ErrExist
| ErrPermission
| ErrOther (msg : string).

Global Instance Error_eq_dec : EqDecision Error.
Proof. solve_decision. Defined.

(** [strings.Join]. *)
Fixpoint strings_Join (elems : list string) (sep : string) : string :=
  match elems with
  | [] => ""
  | [e] => e
  | e :: rest => e +:+ sep +:+ strings_Join rest sep
  end.

(** [err.Error()]. *)
Fixpoint Error_message (e : Error) : string :=
  match e with
  | ErrMissingFlakeDir => "fleek.yml: missing `flakedir`"
  | ErrInvalidShell =>
      "fleek.yml: invalid shell, valid shells are: " +:+ strings_Join shells ", "
  | ErrInvalidBling =>
      "fleek.yml: invalid bling level, valid levels are: "
      +:+ strings_Join blingLevels ", "
  | ErrorInvalidArch =>
      "fleek.yml: invalid architecture, valid architectures are: "
      +:+ strings_Join architectures ", "
  | ErrInvalidOperatingSystem =>
      "fleek.yml: invalid OS, valid operating systems are: "
      +:+ strings_Join operatingSystems ", "
  | ErrPackageNotFound => "package not found in configuration file"
  | ErrProgramNotFound => "program not found in configuration file"
  | ErrRefuseOverwrite =>
      "cowardly refusing to overwrite config file without --force flag"
  | ErrMakingFlakeDir cause => "making flake dir: " +:+ Error_message cause
  | ErrNotExist => "file does not exist"
  | ErrExist => "file already exists"
  | ErrPermission => "permission denied"
  | ErrOther msg => msg
  end.

(** [errors.Is(err, fs.ErrNotExist)] on a possibly nil error. *)
Definition is_ErrNotExist (err : option Error) : bool :=
  match err with
  | Some ErrNotExist => true
  | _ => false
  end.

(** ** [System.HomeDir] *)

Definition HomeDir (s : System) : string :=
  let base := if String.eqb (OS s) "darwin" then "/Users" else "/home" in
  base +:+ "/" +:+ Username s.

(** ** Validation *)

Fixpoint isValueInList (value : string) (list : list string) : bool :=
  match list with
  | [] => false
  | v :: rest => if String.eqb v value then true else isValueInList value rest
  end.

(** The body of the loop over [c.Systems] in [Validate]: the first system
    that breaks a rule ends the loop with that rule's error. *)
Fixpoint Validate_systems (systems : list System) : option Error :=
  match systems with
  | [] => None
  | sys :: rest =>
      if negb (isValueInList (Arch sys) architectures) then Some ErrorInvalidArch
      else if negb (isValueInList (OS sys) operatingSystems)
           then Some ErrInvalidOperatingSystem
      else Validate_systems rest
  end.

Definition Validate (c : Config) : option Error :=
  if String.eqb (FlakeDir c) "" then Some ErrMissingFlakeDir
  else if negb (isValueInList (Shell c) shells) then Some ErrInvalidShell
  else if negb (isValueInList (Bling c) blingLevels) then Some ErrInvalidBling
  else Validate_systems (Systems c).

(** ** The file system

    Regular files and symbolic links by path.  [denied] holds the paths on
    which the operating system refuses every call of this process. *)

Record World := mkWorld {
  files : gmap string string;
  symlinks : gmap string string;
  denied : gset string
}.

Definition set_files (v : gmap string string) (w : World) : World :=
  mkWorld v (symlinks w) (denied w).

Definition set_symlinks (v : gmap string string) (w : World) : World :=
  mkWorld (files w) v (denied w).

Definition exists_at (name : string) (w : World) : bool :=
  bool_decide (is_Some (files w !! name)) || bool_decide (is_Some (symlinks w !! name)).

(** ** Computations

    A computation over a state [S] answers an error or a value, and the
    state it leaves; the state reached when the error was raised is kept. *)

Definition M (S A : Type) : Type := S → (Error + A) * S.

Global Instance M_ret {S} : MRet (M S) := λ A a s, (inr a, s).

Global Instance M_bind {S} : MBind (M S) := λ A B k m s,
  match m s with
  | (inl err, s') => (inl err, s')
  | (inr a, s') => k a s'
  end.

Global Instance M_throw {S} : MThrow Error (M S) := λ A err s, (inl err, s).

(** [v, err := f(); if err != nil { return err }] for a call without effect. *)
Definition try {S A} (r : Error + A) : M S A :=
  match r with
  | inl err => mthrow err
  | inr a => mret a
  end.

(** [err := f(); if err != nil { return err }]. *)
Definition check {S} (err : option Error) : M S unit :=
  match err with
  | Some e => mthrow e
  | None => mret tt
  end.

(** *** Calls of package [os] *)

Definition os_Stat (name : string) : M World (option Error) := λ w,
  if decide (name ∈ denied w) then (inr (Some ErrPermission), w)
  else if exists_at name w then (inr None, w)
  else (inr (Some ErrNotExist), w).

(** [os.Create] truncates or creates the file; the handle is its path. *)
Definition os_Create (name : string) : M World string := λ w,
  if decide (name ∈ denied w) then (inl ErrPermission, w)
  else (inr name, set_files (<[name := ""]> (files w)) w).

(** [WriteString] of [os.File], at the end of the file behind the handle. *)
Definition File_WriteString (f : string) (s : string) : M World nat := λ w,
  match files w !! f with
  | Some old => (inr (String.length s), set_files (<[f := old +:+ s]> (files w)) w)
  | None => (inl ErrNotExist, w)
  end.

Definition os_WriteFile (name : string) (data : string) : M World unit := λ w,
  if decide (name ∈ denied w) then (inl ErrPermission, w)
  else (inr tt, set_files (<[name := data]> (files w)) w).

Definition os_Symlink (oldname newname : string) : M World unit := λ w,
  if decide (newname ∈ denied w) then (inl ErrPermission, w)
  else if exists_at newname w then (inl ErrExist, w)
  else (inr tt, set_symlinks (<[newname := oldname]> (symlinks w)) w).

(** ** Collaborators

    What this file calls and does not define: the identity functions
    [Username], [Hostname] and [Arch] of the package, [runtime.GOOS],
    [os.UserHomeDir], the methods [Location] and [MakeFlakeDir] of
    [Config], and the three calls of the YAML library made on every
    write. *)

Record Env := mkEnv {
  core_Username : Error + string;
  core_Hostname : Error + string;
  core_Arch : string;
  runtime_GOOS : string;
  os_UserHomeDir : Error + string;
  Location : Config → Error + string;
  MakeFlakeDir : Config → M World unit;
  YamlMap : Type;
  yaml_Marshal : Config → Error + string;
  yaml_Unmarshal : string → Error + YamlMap;
  yaml_Marshal_map : YamlMap → Error + string
}.

(** The state of a method with receiver [c *Config]. *)
Record State := mkState {
  cfg : Config;
  world : World
}.

Definition get_cfg : M State Config := λ s, (inr (cfg s), s).

Definition modify_cfg (f : Config → Config) : M State unit := λ s,
  (inr tt, mkState (f (cfg s)) (world s)).

Definition on_world {A} (m : M World A) : M State A := λ s,
  let '(r, w) := m (world s) in (r, mkState (cfg s) w).

(** The search loop of [AddPackage]: the value of [found] after it. *)
Fixpoint search_found (name : string) (l : list string) : bool :=
  match l with
  | [] => false
  | p :: rest => if String.eqb p name then true else search_found name rest
  end.

(** The search loop of [RemovePackage] and [RemoveProgram]: [Some index]
    when [found] is set, at the first position that holds [name]. *)
Fixpoint search_index (name : string) (l : list string) : option nat :=
  match l with
  | [] => None
  | p :: rest => if String.eqb p name then Some 0 else S <$> search_index name rest
  end.

(** [append(l[:index], l[index+1:]...)]. *)
Definition remove_at (index : nat) (l : list string) : list string :=
  take index l ++ drop (index + 1) l.

(** [filepath.Join] of a clean directory path and a file name. *)
Definition filepath_Join (dir name : string) : string := dir +:+ "/" +:+ name.

Section Operations.

Variable E : Env.

Definition NewSystem (name email : string) : Error + System :=
  match core_Username E with
  | inl err => inl err
  | inr user =>
      match core_Hostname E with
      | inl err => inl err
      | inr host =>
          inr (mkSystem host user (core_Arch E) (runtime_GOOS E)
                        (mkGitConfig name email))
      end
  end.

(** The three YAML calls shared by [Save], [WriteSampleConfig] and
    [Eject]: the text written to the file. *)
Definition render {S} (c : Config) : M S string :=
  bb ← try (yaml_Marshal E c);
  m ← try (yaml_Unmarshal E bb);
  n ← try (yaml_Marshal_map E m);
  mret n.

Definition Save : M State unit :=
  c ← get_cfg;
  cfile ← try (Location E c);
  f ← on_world (os_Create cfile);
  sbb ← render c;
  _ ← on_world (File_WriteString f sbb);
  mret tt.

Definition AddPackage (pack : string) : M State unit :=
  c ← get_cfg;
  if search_found pack (Packages c) then mret tt
  else
    modify_cfg (set_Packages (Packages c ++ [pack]));;
    c ← get_cfg;
    check (Validate c);;
    Save.

Definition RemovePackage (pack : string) : M State unit :=
  c ← get_cfg;
  match search_index pack (Packages c) with
  | Some index =>
      modify_cfg (set_Packages (remove_at index (Packages c)));;
      c ← get_cfg;
      check (Validate c);;
      Save
  | None => mthrow ErrPackageNotFound
  end.

Definition RemoveProgram (prog : string) : M State unit :=
  c ← get_cfg;
  match search_index prog (Programs c) with
  | Some index =>
      modify_cfg (set_Programs (remove_at index (Programs c)));;
      c ← get_cfg;
      check (Validate c);;
      Save
  | None => mthrow ErrProgramNotFound
  end.

Definition AddProgram (prog : string) : M State unit :=
  c ← get_cfg;
  modify_cfg (set_Programs (Programs c ++ [prog]));;
  c ← get_cfg;
  check (Validate c);;
  Save.

(** The configuration [WriteSampleConfig] builds. *)
Definition sample_config (location : string) (sys : System) : Config :=
  mkConfig location true "bash" "default" "" "My Fleek Configuration"
           ["helix"] ["dircolors"]
           {[ "cdfleek" := "cd ~/.config/home-manager" ]}
           ["$HOME/bin"; "$HOME/.local/bin"] false [sys].

Definition WriteSampleConfig (location email name : string) (force : bool)
  : M World unit :=
  sys ← try (NewSystem name email);
  let c := sample_config location sys in
  cfile ← try (Location E c);
  (λ w, match MakeFlakeDir E c w with
        | (inl err, w') => (inl (ErrMakingFlakeDir err), w')
        | (inr _, w') => (inr tt, w')
        end);;
  err ← os_Stat cfile;
  if force || is_ErrNotExist err then
    f ← os_Create cfile;
    sbb ← render c;
    _ ← File_WriteString f sbb;
    home ← try (os_UserHomeDir E);
    let csym := filepath_Join home ".fleek.yml" in
    os_Symlink cfile csym;;
    mret tt
  else mthrow ErrRefuseOverwrite.

Definition Eject : M State unit :=
  modify_cfg (set_Ejected true);;
  c ← get_cfg;
  cfile ← try (Location E c);
  n ← render c;
  on_world (os_WriteFile cfile n);;
  mret tt.

End Operations.

(** ** Reading and cloning

    [os.ReadFile] follows symbolic links, at most forty of them as the
    kernel does; the target of a link is taken as an absolute path. *)

Fixpoint resolve_links (fuel : nat) (name : string) (w : World) : Error + string :=
  match symlinks w !! name with
  | None => inr name
  | Some target =>
      match fuel with
      | 0 => inl (ErrOther "too many levels of symbolic links")
      | S fuel' => resolve_links fuel' target w
      end
  end.

Definition os_ReadFile (name : string) (w : World) : Error + string :=
  if decide (name ∈ denied w) then inl ErrPermission
  else match resolve_links 40 name w with
       | inl err => inl err
       | inr path =>
           if decide (path ∈ denied w) then inl ErrPermission
           else match files w !! path with
                | Some data => inr data
                | None => inl ErrNotExist
                end
       end.

(** [&Config{}]: every field at its zero value. *)
Definition zero_Config : Config :=
  mkConfig "" false "" "" "" "" [] [] ∅ [] false [].

(** The text the three YAML calls give for a configuration. *)
Definition yaml_text (E : Env) (c : Config) : Error + string := (render E c tt).1.

(** The file system after a file was set to a text. *)
Definition with_file (name data : string) (w : World) : World :=
  set_files (<[name := data]> (files w)) w.

(** What a successful write of configuration [c] from the file system
    [w] amounts to: [c] validates, its location is found and may be
    written, the YAML calls give a text, and the state left is [c] with
    that text in the file. *)
Definition saved (E : Env) (c : Config) (w : World) (s : State) : Prop :=
  Validate c = None
  ∧ ∃ cfile n, Location E c = inr cfile ∧ (cfile ∉ denied w)
               ∧ yaml_text E c = inr n ∧ s = mkState c (with_file cfile n w).


Section Reading.

(** Besides the collaborators of [Env]: [filepath.Join] of two elements,
    [yaml.Unmarshal] into a [*Config] (the configuration it leaves and
    its error), and the run of [git clone -q repo dir]. *)
Variable E : Env.
Variable Join : string → string → string.
Variable yaml_Unmarshal_Config : string → Config → Config * option Error.
Variable git_clone : string → string → M World unit.

(** [os.UserHomeDir] answers the empty string with an error, which
    [UserFlakeDir] drops. *)
Definition UserFlakeDir (c : Config) : string :=
  let home := match os_UserHomeDir E with
              | inl _ => ""
              | inr home => home
              end in
  Join home (FlakeDir c).

(** [ReadConfig] returns the configuration and the error together. *)
Definition ReadConfig (w : World) : Config * option Error :=
  let c := zero_Config in
  match os_UserHomeDir E with
  | inl err => (c, Some err)
  | inr home =>
      let csym := Join home ".fleek.yml" in
      match os_ReadFile csym w with
      | inl err => (c, Some err)
      | inr bb => yaml_Unmarshal_Config bb c
      end
  end.

Definition Clone (repo : string) : M State unit :=
  c ← get_cfg;
  on_world (git_clone repo (UserFlakeDir c));;
  home ← try (os_UserHomeDir E);
  let yamlPath := Join (UserFlakeDir c) ".fleek.yml" in
  let csym := Join home ".fleek.yml" in
  on_world (os_Symlink yamlPath csym).

End Reading.

(** ** A sample environment

    A host on which the identity functions answer, the configuration file
    lives under the flake directory of the home directory, creating the
    flake directory changes no file, and the YAML text lists the shell,
    the packages and the programs.  It serves to run the operations on
    concrete configurations. *)

Definition sample_yaml (c : Config) : string :=
  "shell: " +:+ Shell c
  +:+ "; packages: " +:+ strings_Join (Packages c) ", "
  +:+ "; programs: " +:+ strings_Join (Programs c) ", "
  +:+ (if Ejected c then "; ejected" else "").

Definition sample_env : Env :=
  mkEnv (inr "jane") (inr "box") "x86_64" "linux" (inr "/home/jane")
        (λ c, inr ("/home/jane/" +:+ FlakeDir c +:+ "/.fleek.yml"))
        (λ c w, (inr tt, w))
        string
        (λ c, inr (sample_yaml c)) inr inr.

Definition linux_box : System :=
  mkSystem "box" "jane" "x86_64" "linux" (mkGitConfig "Jane Doe" "jane@example.com").

Definition mac_book : System :=
  mkSystem "book" "jane" "aarch64" "darwin" (mkGitConfig "Jane Doe" "jane@example.com").

Definition sample : Config :=
  mkConfig ".config/home-manager" true "zsh" "high" "" "My Fleek Configuration"
           ["helix"; "htop"] ["dircolors"] ∅ ["$HOME/bin"] false
           [linux_box; mac_book].

Definition riscv_linux : System :=
  mkSystem "board" "jane" "riscv64" "linux" (mkGitConfig "Jane Doe" "jane@example.com").

Definition x86_windows : System :=
  mkSystem "tower" "jane" "x86_64" "windows" (mkGitConfig "Jane Doe" "jane@example.com").

Definition riscv_windows : System :=
  mkSystem "pad" "jane" "riscv64" "windows" (mkGitConfig "Jane Doe" "jane@example.com").

(** A configuration whose shell is not among the enumerated ones. *)
Definition fish_config : Config := set_Shell "fish" sample.

(** A configuration that holds a program and a package three times. *)
Definition repeating : Config :=
  set_Packages ["jq"; "htop"; "jq"; "yq"; "jq"]
    (set_Programs ["bat"; "exa"; "bat"; "bat"] sample).

Definition empty_world : World := mkWorld ∅ ∅ ∅.

(** A file system that already holds a configuration file. *)
Definition settled_world : World :=
  mkWorld {[ "/home/jane/.config/home-manager/.fleek.yml" := "shell: zsh" ]}
          {[ "/home/jane/.fleek.yml" := "/home/jane/.config/home-manager/.fleek.yml" ]}
          ∅.

(** An environment in which the first YAML call fails. *)
Definition broken_yaml_env : Env :=
  mkEnv (inr "jane") (inr "box") "x86_64" "linux" (inr "/home/jane")
        (λ c, inr ("/home/jane/" +:+ FlakeDir c +:+ "/.fleek.yml"))
        (λ c w, (inr tt, w))
        string
        (λ c, inl (ErrOther "yaml: cannot marshal")) inr inr.

(** An environment without a home directory. *)
Definition homeless_env : Env :=
  mkEnv (inr "jane") (inr "box") "x86_64" "linux"
        (inl (ErrOther "$HOME is not defined"))
        (λ c, inr ("/srv/" +:+ FlakeDir c +:+ "/.fleek.yml"))
        (λ c w, (inr tt, w))
        string
        (λ c, inr (sample_yaml c)) inr inr.

(** A decoder that keeps the text it is given in the [Name] field, and
    refuses the empty text. *)
Definition sample_decode (bb : string) (c : Config) : Config * option Error :=
  if decide (bb = "") then (c, Some (ErrOther "EOF"))
  else (mkConfig (FlakeDir c) (Unfree c) (Shell c) (Bling c) (Repository c) bb
                 (Packages c) (Programs c) (Aliases c) (Paths c) (Ejected c)
                 (Systems c), None).

(** A clone that brings a configuration file into the directory, and one
    that fails. *)
Definition sample_git (repo dir : string) : M World unit := λ w,
  (inr tt, with_file (dir +:+ "/.fleek.yml") ("cloned from " +:+ repo) w).

Definition failing_git (repo dir : string) : M World unit := λ w,
  (inl (ErrOther "exit status 128"), w).

(** ** The enumerated sets, as the specification words them *)

Definition valid_shell (s : string) : Prop := s = "bash" ∨ s = "zsh".
Definition valid_bling (s : string) : Prop := s = "low" ∨ s = "default" ∨ s = "high".
Definition valid_arch (s : string) : Prop := s = "aarch64" ∨ s = "x86_64".
Definition valid_os (s : string) : Prop := s = "linux" ∨ s = "darwin".
Definition valid_system (s : System) : Prop := valid_arch (Arch s) ∧ valid_os (OS s).

(** ** Tactics *)

(** Settles a statement on the enumerated sets at given strings. *)
Ltac enumerated :=
  unfold valid_system, valid_shell, valid_bling, valid_arch, valid_os; simpl;
  repeat match goal with
         | |- Forall _ [] => constructor
         | |- Forall _ (_ :: _) => constructor
         | |- _ ∧ _ => split
         | |- ¬ _ => intros ?
         | |- _ ≠ _ => intros ?
         | H : _ ∨ _ |- _ => destruct H
         | H : _ ∧ _ |- _ => destruct H
         | H : _ = _ |- _ => discriminate H
         | |- _ = _ => reflexivity
         | |- _ ∨ _ => first [left; reflexivity | right]
         end.

(** Opens the sequencing of calls in a computation. *)
Ltac unfold_calls :=
  unfold get_cfg, modify_cfg, on_world, try, check;
  unfold mbind, mret, mthrow, M_bind, M_ret, M_throw;
  cbn [cfg world].

(** Runs a computation through every outcome of the calls it makes. *)
Ltac run_steps :=
  unfold_calls; repeat (simpl; case_match; simplify_eq); simpl; try done.

(** * Properties *)

(** ** Membership tests *)

Lemma isValueInList_elem_of (value : string) (l : list string) :
  isValueInList value l = true ↔ value ∈ l.
Proof.
  induction l as [|v rest IH]; simpl.
  - split; [discriminate | intros H; inversion H].
  - destruct (String.eqb v value) eqn:Hv.
    + apply String.eqb_eq in Hv as ->. split; [intros _; left | done].
    + apply String.eqb_neq in Hv. rewrite IH, elem_of_cons. intuition congruence.
Qed.

Lemma shells_spec (s : string) : isValueInList s shells = true ↔ valid_shell s.
Proof.
  rewrite isValueInList_elem_of. unfold shells, valid_shell.
  rewrite !elem_of_cons, elem_of_nil. tauto.
Qed.

Lemma blingLevels_spec (s : string) : isValueInList s blingLevels = true ↔ valid_bling s.
Proof.
  rewrite isValueInList_elem_of. unfold blingLevels, valid_bling.
  rewrite !elem_of_cons, elem_of_nil. tauto.
Qed.

Lemma architectures_spec (s : string) : isValueInList s architectures = true ↔ valid_arch s.
Proof.
  rewrite isValueInList_elem_of. unfold architectures, valid_arch.
  rewrite !elem_of_cons, elem_of_nil. tauto.
Qed.

Lemma operatingSystems_spec (s : string) :
  isValueInList s operatingSystems = true ↔ valid_os s.
Proof.
  rewrite isValueInList_elem_of. unfold operatingSystems, valid_os.
  rewrite !elem_of_cons, elem_of_nil. tauto.
Qed.

Lemma test_fails (b : bool) (P : Prop) : (b = true ↔ P) → ¬ P → b = false.
Proof. intros H HP. destruct b; [|done]. exfalso. apply HP, H. done. Qed.

Lemma Validate_systems_valid (systems : list System) :
  Forall valid_system systems → Validate_systems systems = None.
Proof.
  induction 1 as [|sys rest [Ha Ho] _ IH]; [done|]. cbn [Validate_systems].
  apply architectures_spec in Ha as ->. apply operatingSystems_spec in Ho as ->.
  exact IH.
Qed.

Lemma Validate_systems_app_valid (pre rest : list System) :
  Forall valid_system pre → Validate_systems (pre ++ rest) = Validate_systems rest.
Proof.
  induction 1 as [|sys pre' [Ha Ho] _ IH]; [done|].
  cbn [Validate_systems app].
  apply architectures_spec in Ha as ->. apply operatingSystems_spec in Ho as ->.
  exact IH.
Qed.

Lemma Validate_systems_None (systems : list System) :
  Validate_systems systems = None → Forall valid_system systems.
Proof.
  induction systems as [|sys rest IH]; cbn [Validate_systems]; [constructor|].
  destruct (isValueInList (Arch sys) architectures) eqn:Ha; [|discriminate].
  destruct (isValueInList (OS sys) operatingSystems) eqn:Ho; [|discriminate].
  cbn [negb]. intros H. constructor; [|auto].
  split; [by apply architectures_spec | by apply operatingSystems_spec].
Qed.

Lemma FlakeDir_eqb_false (c : Config) : FlakeDir c ≠ "" → String.eqb (FlakeDir c) "" = false.
Proof. by intros H; apply String.eqb_neq. Qed.

(** ** [Validate] *)

(** [Validate] looks at neither list of names. *)
Lemma Validate_set_Packages (l : list string) (c : Config) :
  Validate (set_Packages l c) = Validate c.
Proof. reflexivity. Qed.

Lemma Validate_set_Programs (l : list string) (c : Config) :
  Validate (set_Programs l c) = Validate c.
Proof. reflexivity. Qed.

Lemma Validate_globals_ok (c : Config) :
  FlakeDir c ≠ "" → valid_shell (Shell c) → valid_bling (Bling c) →
  Validate c = Validate_systems (Systems c).
Proof.
  intros Hf Hs Hb. unfold Validate.
  rewrite (FlakeDir_eqb_false _ Hf).
  apply shells_spec in Hs as ->. apply blingLevels_spec in Hb as ->.
  reflexivity.
Qed.

Lemma Validate_missing_flakedir (c : Config) :
  FlakeDir c = "" → Validate c = Some ErrMissingFlakeDir.
Proof. intros Hf. unfold Validate. by rewrite Hf. Qed.

Lemma Validate_invalid_shell (c : Config) :
  FlakeDir c ≠ "" → ¬ valid_shell (Shell c) → Validate c = Some ErrInvalidShell.
Proof.
  intros Hf Hs. unfold Validate. rewrite (FlakeDir_eqb_false _ Hf).
  by rewrite (test_fails _ _ (shells_spec _) Hs).
Qed.

(** C1: a configuration with a non-empty flake directory, a shell among
    bash and zsh, a bling level among low, default and high, and systems
    whose architecture is aarch64 or x86_64 and whose operating system is
    linux or darwin, validates.  Otherwise [Validate] returns the error of
    the first rule broken, in the order flake directory, shell, bling
    level, then the systems in order, the architecture of a system before
    its operating system; one error only is returned. *)
Theorem Validate_first_violated_rule (c : Config) :
  (FlakeDir c ≠ "" → valid_shell (Shell c) → valid_bling (Bling c) →
   Forall valid_system (Systems c) → Validate c = None)
  ∧ (FlakeDir c = "" → Validate c = Some ErrMissingFlakeDir)
  ∧ (FlakeDir c ≠ "" → ¬ valid_shell (Shell c) → Validate c = Some ErrInvalidShell)
  ∧ (FlakeDir c ≠ "" → valid_shell (Shell c) → ¬ valid_bling (Bling c) →
     Validate c = Some ErrInvalidBling)
  ∧ (∀ pre sys post,
       FlakeDir c ≠ "" → valid_shell (Shell c) → valid_bling (Bling c) →
       Systems c = pre ++ sys :: post → Forall valid_system pre →
       ¬ valid_arch (Arch sys) → Validate c = Some ErrorInvalidArch)
  ∧ (∀ pre sys post,
       FlakeDir c ≠ "" → valid_shell (Shell c) → valid_bling (Bling c) →
       Systems c = pre ++ sys :: post → Forall valid_system pre →
       valid_arch (Arch sys) → ¬ valid_os (OS sys) →
       Validate c = Some ErrInvalidOperatingSystem)
  ∧ (Validate c = None →
     FlakeDir c ≠ "" ∧ valid_shell (Shell c) ∧ valid_bling (Bling c)
     ∧ Forall valid_system (Systems c)).
Proof.
  repeat split.
  - intros Hf Hs Hb Hsys. rewrite Validate_globals_ok by done.
    by apply Validate_systems_valid.
  - apply Validate_missing_flakedir.
  - apply Validate_invalid_shell.
  - intros Hf Hs Hb. unfold Validate. rewrite (FlakeDir_eqb_false _ Hf).
    apply shells_spec in Hs as ->.
    by rewrite (test_fails _ _ (blingLevels_spec _) Hb).
  - intros pre sys post Hf Hs Hb Hsys Hpre Ha.
    rewrite Validate_globals_ok, Hsys, Validate_systems_app_valid by done.
    cbn [Validate_systems].
    by rewrite (test_fails _ _ (architectures_spec _) Ha).
  - intros pre sys post Hf Hs Hb Hsys Hpre Ha Ho.
    rewrite Validate_globals_ok, Hsys, Validate_systems_app_valid by done.
    cbn [Validate_systems]. apply architectures_spec in Ha as ->.
    by rewrite (test_fails _ _ (operatingSystems_spec _) Ho).
  - unfold Validate in H.
    destruct (String.eqb (FlakeDir c) "") eqn:Hf; [done|]. by apply String.eqb_neq.
  - unfold Validate in H.
    destruct (String.eqb (FlakeDir c) ""); [done|].
    destruct (isValueInList (Shell c) shells) eqn:Hs; [|done]. by apply shells_spec.
  - unfold Validate in H.
    destruct (String.eqb (FlakeDir c) ""); [done|].
    destruct (isValueInList (Shell c) shells); [|done].
    destruct (isValueInList (Bling c) blingLevels) eqn:Hb; [|done].
    by apply blingLevels_spec.
  - unfold Validate in H.
    destruct (String.eqb (FlakeDir c) ""); [done|].
    destruct (isValueInList (Shell c) shells); [|done].
    destruct (isValueInList (Bling c) blingLevels); [|done].
    by apply Validate_systems_None.
Qed.

Lemma Validate_first_violated_rule_witness :
  Validate sample = None
  ∧ Validate (set_FlakeDir "" (set_Shell "fish" sample)) = Some ErrMissingFlakeDir
  ∧ Validate (set_Shell "fish" (set_Bling "max" sample)) = Some ErrInvalidShell
  ∧ Validate (set_Bling "max" (set_Systems [riscv_windows] sample))
    = Some ErrInvalidBling
  ∧ Validate (set_Systems [linux_box; riscv_windows; x86_windows] sample)
    = Some ErrorInvalidArch
  ∧ Validate (set_Systems [linux_box; x86_windows; riscv_linux] sample)
    = Some ErrInvalidOperatingSystem.
Proof.
  split; [|split; [|split; [|split; [|split]]]].
  - apply (Validate_first_violated_rule sample); enumerated.
  - apply (Validate_first_violated_rule (set_FlakeDir "" (set_Shell "fish" sample))).
    reflexivity.
  - apply (Validate_first_violated_rule (set_Shell "fish" (set_Bling "max" sample)));
      enumerated.
  - apply (Validate_first_violated_rule
             (set_Bling "max" (set_Systems [riscv_windows] sample))); enumerated.
  - apply (proj1 (proj2 (proj2 (proj2 (proj2
             (Validate_first_violated_rule
                (set_Systems [linux_box; riscv_windows; x86_windows] sample))))))
             [linux_box] riscv_windows [x86_windows]); enumerated.
  - apply (proj1 (proj2 (proj2 (proj2 (proj2 (proj2
             (Validate_first_violated_rule
                (set_Systems [linux_box; x86_windows; riscv_linux] sample)))))))
             [linux_box] x86_windows [riscv_linux]); enumerated.
Defined.

(** ** [HomeDir] *)

(** C9: the home directory of a system is [/Users/] followed by the user
    name when its operating system is darwin, and [/home/] followed by the
    user name for every other operating system. *)
Theorem HomeDir_by_OS (s : System) :
  (OS s = "darwin" → HomeDir s = "/Users/" +:+ Username s)
  ∧ (OS s ≠ "darwin" → HomeDir s = "/home/" +:+ Username s).
Proof.
  unfold HomeDir. split; intros H.
  - rewrite H. reflexivity.
  - apply String.eqb_neq in H as ->. reflexivity.
Qed.

Lemma HomeDir_by_OS_witness :
  HomeDir mac_book = "/Users/jane" ∧ HomeDir linux_box = "/home/jane"
  ∧ HomeDir x86_windows = "/home/jane".
Proof.
  split; [|split].
  - apply (proj1 (HomeDir_by_OS mac_book)). reflexivity.
  - apply (proj2 (HomeDir_by_OS linux_box)). enumerated.
  - apply (proj2 (HomeDir_by_OS x86_windows)). enumerated.
Defined.

(** ** The search loops *)

Lemma search_found_elem_of (name : string) (l : list string) :
  search_found name l = true ↔ name ∈ l.
Proof.
  induction l as [|p rest IH]; simpl.
  - split; [discriminate | intros H; inversion H].
  - destruct (String.eqb p name) eqn:Hp.
    + apply String.eqb_eq in Hp as ->. split; [intros _; left | done].
    + apply String.eqb_neq in Hp. rewrite IH, elem_of_cons. intuition congruence.
Qed.

Lemma search_found_absent (name : string) (l : list string) :
  name ∉ l → search_found name l = false.
Proof. apply test_fails, search_found_elem_of. Qed.

Lemma search_index_absent (name : string) (l : list string) :
  name ∉ l → search_index name l = None.
Proof.
  induction l as [|p rest IH]; [done|]. intros Hn. simpl.
  apply not_elem_of_cons in Hn as [Hne Hrest].
  destruct (String.eqb p name) eqn:Hp.
  - apply String.eqb_eq in Hp. congruence.
  - by rewrite IH.
Qed.

(** The loop stops at the first position that holds the name. *)
Lemma search_index_first (name : string) (pre post : list string) :
  name ∉ pre → search_index name (pre ++ name :: post) = Some (length pre).
Proof.
  induction pre as [|p pre IH]; intros Hn; simpl.
  - by rewrite String.eqb_refl.
  - apply not_elem_of_cons in Hn as [Hne Hpre].
    destruct (String.eqb p name) eqn:Hp.
    + apply String.eqb_eq in Hp. congruence.
    + by rewrite IH.
Qed.

Lemma elem_of_first_split (name : string) (l : list string) :
  name ∈ l → ∃ pre post, l = pre ++ name :: post ∧ name ∉ pre.
Proof.
  induction l as [|p rest IH]; intros Hin; [inversion Hin|].
  destruct (decide (p = name)) as [->|Hne].
  - exists [], rest. split; [done | apply not_elem_of_nil].
  - apply elem_of_cons in Hin as [->|Hin]; [done|].
    destruct (IH Hin) as (pre & post & -> & Hpre).
    exists (p :: pre), post. split; [done|].
    apply not_elem_of_cons. split; [congruence | done].
Qed.

Lemma remove_at_middle (pre post : list string) (name : string) :
  remove_at (length pre) (pre ++ name :: post) = pre ++ post.
Proof.
  unfold remove_at.
  rewrite take_app_length.
  rewrite drop_app_ge by lia.
  replace (length pre + 1 - length pre) with 1 by lia. reflexivity.
Qed.

(** ** One step of each operation *)

Section Steps.

Variable E : Env.

(** [Save] writes the file system and leaves the receiver alone. *)
Lemma Save_cfg (s : State) : cfg (Save E s).2 = cfg s.
Proof.
  destruct s as [c w]. unfold Save, render. run_steps.
Qed.

Lemma AddPackage_present (pack : string) (c : Config) (w : World) :
  pack ∈ Packages c → AddPackage E pack (mkState c w) = (inr tt, mkState c w).
Proof.
  intros Hin. apply search_found_elem_of in Hin.
  unfold AddPackage, get_cfg, mbind, M_bind. simpl. by rewrite Hin.
Qed.

Lemma AddPackage_absent (pack : string) (c : Config) (w : World) :
  pack ∉ Packages c →
  AddPackage E pack (mkState c w) =
  let c' := set_Packages (Packages c ++ [pack]) c in
  match Validate c with
  | Some err => (inl err, mkState c' w)
  | None => Save E (mkState c' w)
  end.
Proof.
  intros Hn. apply search_found_absent in Hn.
  unfold AddPackage, get_cfg, modify_cfg, check, mbind, M_bind. simpl.
  rewrite Hn. cbn [cfg world]. rewrite Validate_set_Packages.
  by destruct (Validate c).
Qed.

Lemma AddProgram_step (prog : string) (c : Config) (w : World) :
  AddProgram E prog (mkState c w) =
  let c' := set_Programs (Programs c ++ [prog]) c in
  match Validate c with
  | Some err => (inl err, mkState c' w)
  | None => Save E (mkState c' w)
  end.
Proof.
  unfold AddProgram, get_cfg, modify_cfg, check, mbind, M_bind.
  cbn [cfg world]. rewrite Validate_set_Programs. by destruct (Validate c).
Qed.

Lemma RemovePackage_absent (pack : string) (c : Config) (w : World) :
  pack ∉ Packages c →
  RemovePackage E pack (mkState c w) = (inl ErrPackageNotFound, mkState c w).
Proof.
  intros Hn. apply search_index_absent in Hn.
  unfold RemovePackage, get_cfg, mbind, M_bind. simpl. by rewrite Hn.
Qed.

Lemma RemoveProgram_absent (prog : string) (c : Config) (w : World) :
  prog ∉ Programs c →
  RemoveProgram E prog (mkState c w) = (inl ErrProgramNotFound, mkState c w).
Proof.
  intros Hn. apply search_index_absent in Hn.
  unfold RemoveProgram, get_cfg, mbind, M_bind. simpl. by rewrite Hn.
Qed.

Lemma RemovePackage_first (pack : string) (pre post : list string)
      (c : Config) (w : World) :
  Packages c = pre ++ pack :: post → pack ∉ pre →
  RemovePackage E pack (mkState c w) =
  let c' := set_Packages (pre ++ post) c in
  match Validate c with
  | Some err => (inl err, mkState c' w)
  | None => Save E (mkState c' w)
  end.
Proof.
  intros Hl Hn.
  unfold RemovePackage, get_cfg, modify_cfg, check, mbind, M_bind. simpl.
  rewrite Hl, (search_index_first _ _ _ Hn). cbn [cfg world].
  rewrite remove_at_middle, Validate_set_Packages.
  by destruct (Validate c).
Qed.

Lemma RemoveProgram_first (prog : string) (pre post : list string)
      (c : Config) (w : World) :
  Programs c = pre ++ prog :: post → prog ∉ pre →
  RemoveProgram E prog (mkState c w) =
  let c' := set_Programs (pre ++ post) c in
  match Validate c with
  | Some err => (inl err, mkState c' w)
  | None => Save E (mkState c' w)
  end.
Proof.
  intros Hl Hn.
  unfold RemoveProgram, get_cfg, modify_cfg, check, mbind, M_bind. simpl.
  rewrite Hl, (search_index_first _ _ _ Hn). cbn [cfg world].
  rewrite remove_at_middle, Validate_set_Programs.
  by destruct (Validate c).
Qed.

End Steps.

(** ** [AddPackage] *)

(** C2, as amended: when the name is already in the package list,
    [AddPackage] returns nil and changes neither the configuration nor the
    file system, whether the configuration validates or not.  When the name
    is not yet in the list, the first call appends it, the second call
    returns nil and changes nothing, and after the two calls the list is
    one element longer than the original. *)
Theorem AddPackage_idempotent (E : Env) (pack : string) (c : Config) (w : World) :
  (pack ∈ Packages c → AddPackage E pack (mkState c w) = (inr tt, mkState c w))
  ∧ (pack ∉ Packages c →
     let s1 := (AddPackage E pack (mkState c w)).2 in
     Packages (cfg s1) = Packages c ++ [pack]
     ∧ AddPackage E pack s1 = (inr tt, s1)
     ∧ length (Packages (cfg (AddPackage E pack s1).2)) = length (Packages c) + 1).
Proof.
  split; [apply AddPackage_present|].
  intros Hn s1.
  assert (Hs1 : Packages (cfg s1) = Packages c ++ [pack]).
  { subst s1. rewrite AddPackage_absent by done. cbv zeta.
    destruct (Validate c); [done|]. by rewrite Save_cfg. }
  assert (Hsame : AddPackage E pack s1 = (inr tt, s1)).
  { destruct s1 as [c1 w1]. apply AddPackage_present.
    simpl in Hs1. rewrite Hs1. apply elem_of_app. right. by left. }
  split; [done|]. split; [done|].
  rewrite Hsame. simpl. rewrite Hs1, length_app. reflexivity.
Qed.

Lemma AddPackage_idempotent_witness :
  AddPackage sample_env "htop" (mkState sample settled_world)
  = (inr tt, mkState sample settled_world)
  ∧ (let s1 := (AddPackage sample_env "jq" (mkState sample settled_world)).2 in
     Packages (cfg s1) = Packages sample ++ ["jq"]
     ∧ AddPackage sample_env "jq" s1 = (inr tt, s1)
     ∧ length (Packages (cfg (AddPackage sample_env "jq" s1).2))
       = length (Packages sample) + 1).
Proof.
  split.
  - apply (proj1 (AddPackage_idempotent sample_env "htop" sample settled_world)).
    right. left.
  - apply (proj2 (AddPackage_idempotent sample_env "jq" sample settled_world)).
    intros H. repeat (apply elem_of_cons in H as [H|H]; [discriminate H|]).
    inversion H.
Defined.

(** C2, as stated, fails on a configuration that already holds the name:
    both calls return at once and the list keeps its length. *)
Lemma AddPackage_twice_present_counterexample :
  let s0 := mkState sample settled_world in
  let s1 := (AddPackage sample_env "helix" s0).2 in
  let s2 := (AddPackage sample_env "helix" s1).2 in
  Packages sample = ["helix"; "htop"]
  ∧ Packages (cfg s2) = ["helix"; "htop"]
  ∧ length (Packages (cfg s2)) ≠ length (Packages sample) + 1.
Proof. vm_compute. repeat split. discriminate. Qed.

(** ** Validation errors leave the change in place *)

(** C3: when validation fails after the change made in memory, each of
    [AddPackage] (name not yet present), [RemovePackage] and
    [RemoveProgram] (name present, first held at the position after
    [pre]) and [AddProgram] returns the validation error, and the state it
    leaves holds the changed list; the file system is as before. *)
Theorem mutation_kept_on_validation_error
        (E : Env) (name : string) (c : Config) (w : World) (err : Error) :
  (name ∉ Packages c →
   Validate (set_Packages (Packages c ++ [name]) c) = Some err →
   AddPackage E name (mkState c w)
   = (inl err, mkState (set_Packages (Packages c ++ [name]) c) w))
  ∧ (∀ pre post, Packages c = pre ++ name :: post → name ∉ pre →
     Validate (set_Packages (pre ++ post) c) = Some err →
     RemovePackage E name (mkState c w)
     = (inl err, mkState (set_Packages (pre ++ post) c) w))
  ∧ (∀ pre post, Programs c = pre ++ name :: post → name ∉ pre →
     Validate (set_Programs (pre ++ post) c) = Some err →
     RemoveProgram E name (mkState c w)
     = (inl err, mkState (set_Programs (pre ++ post) c) w))
  ∧ (Validate (set_Programs (Programs c ++ [name]) c) = Some err →
     AddProgram E name (mkState c w)
     = (inl err, mkState (set_Programs (Programs c ++ [name]) c) w)).
Proof.
  repeat split.
  - intros Hn Hv. rewrite Validate_set_Packages in Hv.
    rewrite AddPackage_absent by done. cbv zeta. by rewrite Hv.
  - intros pre post Hl Hn Hv. rewrite Validate_set_Packages in Hv.
    rewrite (RemovePackage_first E name pre post) by done. cbv zeta. by rewrite Hv.
  - intros pre post Hl Hn Hv. rewrite Validate_set_Programs in Hv.
    rewrite (RemoveProgram_first E name pre post) by done. cbv zeta. by rewrite Hv.
  - intros Hv. rewrite Validate_set_Programs in Hv.
    rewrite AddProgram_step. cbv zeta. by rewrite Hv.
Qed.

Lemma mutation_kept_on_validation_error_witness :
  AddPackage sample_env "helix-gpt" (mkState fish_config settled_world)
  = (inl ErrInvalidShell,
     mkState (set_Packages ["helix"; "htop"; "helix-gpt"] fish_config) settled_world)
  ∧ RemovePackage sample_env "htop" (mkState fish_config settled_world)
    = (inl ErrInvalidShell, mkState (set_Packages ["helix"] fish_config) settled_world)
  ∧ RemoveProgram sample_env "dircolors" (mkState fish_config settled_world)
    = (inl ErrInvalidShell, mkState (set_Programs [] fish_config) settled_world)
  ∧ AddProgram sample_env "bat" (mkState fish_config settled_world)
    = (inl ErrInvalidShell,
       mkState (set_Programs ["dircolors"; "bat"] fish_config) settled_world).
Proof.
  split; [|split; [|split]].
  - apply (proj1 (mutation_kept_on_validation_error
                    sample_env "helix-gpt" fish_config settled_world ErrInvalidShell)).
    + intros H. repeat (apply elem_of_cons in H as [H|H]; [discriminate H|]).
      inversion H.
    + reflexivity.
  - apply (proj1 (proj2 (mutation_kept_on_validation_error
                    sample_env "htop" fish_config settled_world ErrInvalidShell))
             ["helix"] []).
    + reflexivity.
    + intros H. repeat (apply elem_of_cons in H as [H|H]; [discriminate H|]).
      inversion H.
    + reflexivity.
  - apply (proj1 (proj2 (proj2 (mutation_kept_on_validation_error
                    sample_env "dircolors" fish_config settled_world ErrInvalidShell)))
             [] []).
    + reflexivity.
    + intros H. inversion H.
    + reflexivity.
  - apply (proj2 (proj2 (proj2 (mutation_kept_on_validation_error
                    sample_env "bat" fish_config settled_world ErrInvalidShell)))).
    reflexivity.
Defined.

(** ** Removing an absent name *)

(** C6: [RemovePackage] with a name that the package list does not hold
    returns [ErrPackageNotFound] and leaves the configuration and the file
    system as they were; [RemoveProgram] with a name that the program list
    does not hold returns [ErrProgramNotFound] and leaves them as they
    were. *)
Theorem Remove_absent_unchanged (E : Env) (name : string) (c : Config) (w : World) :
  (name ∉ Packages c →
   RemovePackage E name (mkState c w) = (inl ErrPackageNotFound, mkState c w))
  ∧ (name ∉ Programs c →
     RemoveProgram E name (mkState c w) = (inl ErrProgramNotFound, mkState c w)).
Proof. split; [apply RemovePackage_absent | apply RemoveProgram_absent]. Qed.

Lemma Remove_absent_unchanged_witness :
  RemovePackage sample_env "dircolors" (mkState sample settled_world)
  = (inl ErrPackageNotFound, mkState sample settled_world)
  ∧ RemoveProgram sample_env "helix" (mkState sample settled_world)
    = (inl ErrProgramNotFound, mkState sample settled_world).
Proof.
  split.
  - apply (proj1 (Remove_absent_unchanged sample_env "dircolors" sample settled_world)).
    intros H. repeat (apply elem_of_cons in H as [H|H]; [discriminate H|]).
    inversion H.
  - apply (proj2 (Remove_absent_unchanged sample_env "helix" sample settled_world)).
    intros H. repeat (apply elem_of_cons in H as [H|H]; [discriminate H|]).
    inversion H.
Defined.

(** ** Removing a name held more than once *)

(** C10: when the program list holds the name at the position after
    [pre] and not before, [RemoveProgram] leaves the list [pre ++ post]:
    the first occurrence is gone and every later occurrence, in [post],
    is still there; [RemovePackage] does the same on the package list. *)
Theorem Remove_first_occurrence_only
        (E : Env) (name : string) (pre post : list string) (c : Config) (w : World) :
  (Programs c = pre ++ name :: post → name ∉ pre →
   let c' := cfg (RemoveProgram E name (mkState c w)).2 in
   Programs c' = pre ++ post ∧ (name ∈ post → name ∈ Programs c'))
  ∧ (Packages c = pre ++ name :: post → name ∉ pre →
     let c' := cfg (RemovePackage E name (mkState c w)).2 in
     Packages c' = pre ++ post ∧ (name ∈ post → name ∈ Packages c')).
Proof.
  split; intros Hl Hn c'.
  - assert (Hc' : Programs c' = pre ++ post).
    { subst c'. rewrite (RemoveProgram_first E name pre post) by done. cbv zeta.
      destruct (Validate c); [done|]. by rewrite Save_cfg. }
    split; [done|]. intros Hin. rewrite Hc'. apply elem_of_app. by right.
  - assert (Hc' : Packages c' = pre ++ post).
    { subst c'. rewrite (RemovePackage_first E name pre post) by done. cbv zeta.
      destruct (Validate c); [done|]. by rewrite Save_cfg. }
    split; [done|]. intros Hin. rewrite Hc'. apply elem_of_app. by right.
Qed.

Lemma Remove_first_occurrence_only_witness :
  Programs (cfg (RemoveProgram sample_env "bat" (mkState repeating settled_world)).2)
  = ["exa"; "bat"; "bat"]
  ∧ Packages (cfg (RemovePackage sample_env "jq" (mkState repeating settled_world)).2)
    = ["htop"; "jq"; "yq"; "jq"].
Proof.
  split.
  - apply (proj1 (Remove_first_occurrence_only
                    sample_env "bat" [] ["exa"; "bat"; "bat"] repeating settled_world)).
    + reflexivity.
    + intros H. inversion H.
  - apply (proj2 (Remove_first_occurrence_only
                    sample_env "jq" [] ["htop"; "jq"; "yq"; "jq"]
                    repeating settled_world)).
    + reflexivity.
    + intros H. inversion H.
Defined.

(** ** [AddProgram] *)

(** C5: [AddProgram] appends without looking for the name: after two
    calls with the same name the program list is the original one followed
    by the name twice, so the name occurs two more times than before; on a
    configuration that validates, validation passes at both calls and each
    call goes on to [Save]. *)
Theorem AddProgram_accumulates (E : Env) (prog : string) (c : Config) (w : World) :
  let s1 := (AddProgram E prog (mkState c w)).2 in
  let s2 := (AddProgram E prog s1).2 in
  Programs (cfg s1) = Programs c ++ [prog]
  ∧ Programs (cfg s2) = Programs c ++ [prog; prog]
  ∧ length (filter (λ p, p = prog) (Programs (cfg s2)))
    = length (filter (λ p, p = prog) (Programs c)) + 2
  ∧ (Validate c = None →
     AddProgram E prog (mkState c w)
     = Save E (mkState (set_Programs (Programs c ++ [prog]) c) w)
     ∧ AddProgram E prog s1
       = Save E (mkState (set_Programs (Programs c ++ [prog; prog]) (cfg s1)) (world s1))).
Proof.
  intros s1 s2.
  assert (Hstep : ∀ c0 w0,
             cfg (AddProgram E prog (mkState c0 w0)).2
             = set_Programs (Programs c0 ++ [prog]) c0).
  { intros c0 w0. rewrite AddProgram_step. cbv zeta.
    destruct (Validate c0); [done|]. by rewrite Save_cfg. }
  assert (Hs1 : cfg s1 = set_Programs (Programs c ++ [prog]) c) by apply Hstep.
  assert (Hs2 : Programs (cfg s2) = Programs c ++ [prog; prog]).
  { subst s2. destruct s1 as [c1 w1]. rewrite Hstep. simpl in *. subst c1.
    simpl. by rewrite <- app_assoc. }
  split; [by rewrite Hs1|]. split; [done|]. split.
  - rewrite Hs2, filter_app, length_app.
    rewrite !filter_cons_True by done. rewrite filter_nil. reflexivity.
  - intros Hv. split.
    + rewrite AddProgram_step. cbv zeta. by rewrite Hv.
    + destruct s1 as [c1 w1]. simpl in *. subst c1.
      rewrite AddProgram_step. cbv zeta. rewrite Validate_set_Programs, Hv.
      simpl. by rewrite <- app_assoc.
Qed.

Lemma AddProgram_accumulates_witness :
  let s1 := (AddProgram sample_env "bat" (mkState sample settled_world)).2 in
  let s2 := (AddProgram sample_env "bat" s1).2 in
  Programs (cfg s2) = ["dircolors"; "bat"; "bat"]
  ∧ AddProgram sample_env "bat" (mkState sample settled_world)
    = Save sample_env (mkState (set_Programs ["dircolors"; "bat"] sample) settled_world).
Proof.
  intros s1 s2. split.
  - apply (proj1 (proj2 (AddProgram_accumulates sample_env "bat" sample settled_world))).
  - apply (proj2 (proj2 (proj2
             (AddProgram_accumulates sample_env "bat" sample settled_world)))).
    reflexivity.
Defined.

(** ** Duplicate names *)

Section NoDuplicates.

Variable E : Env.

Lemma NoDup_remove_middle (pre post : list string) (name : string) :
  NoDup (pre ++ name :: post) → NoDup (pre ++ post).
Proof.
  rewrite !NoDup_app, NoDup_cons. intros (Hpre & Hdis & _ & Hpost).
  split; [done|]. split; [|done].
  intros x Hx Hin. apply (Hdis x Hx). by right.
Qed.

(** [AddPackage] keeps both lists free of duplicates. *)
Lemma AddPackage_NoDup (pack : string) (c : Config) (w : World) :
  NoDup (Packages c) → NoDup (Programs c) →
  let c' := cfg (AddPackage E pack (mkState c w)).2 in
  NoDup (Packages c') ∧ NoDup (Programs c').
Proof.
  intros Hpk Hpr c'. subst c'.
  destruct (decide (pack ∈ Packages c)) as [Hin|Hn].
  - by rewrite AddPackage_present.
  - rewrite AddPackage_absent by done. cbv zeta.
    assert (NoDup (Packages c ++ [pack])).
    { apply NoDup_app. split; [done|]. split; [|apply NoDup_singleton].
      intros x Hx Hin. apply list_elem_of_singleton in Hin. congruence. }
    destruct (Validate c); [done|]. by rewrite Save_cfg.
Qed.

(** [RemovePackage] keeps both lists free of duplicates. *)
Lemma RemovePackage_NoDup (pack : string) (c : Config) (w : World) :
  NoDup (Packages c) → NoDup (Programs c) →
  let c' := cfg (RemovePackage E pack (mkState c w)).2 in
  NoDup (Packages c') ∧ NoDup (Programs c').
Proof.
  intros Hpk Hpr c'. subst c'.
  destruct (decide (pack ∈ Packages c)) as [Hin|Hn].
  - destruct (elem_of_first_split _ _ Hin) as (pre & post & Hl & Hpre).
    rewrite (RemovePackage_first E pack pre post) by done. cbv zeta.
    rewrite Hl in Hpk. apply NoDup_remove_middle in Hpk.
    destruct (Validate c); [done|]. by rewrite Save_cfg.
  - by rewrite RemovePackage_absent.
Qed.

(** [RemoveProgram] keeps both lists free of duplicates. *)
Lemma RemoveProgram_NoDup (prog : string) (c : Config) (w : World) :
  NoDup (Packages c) → NoDup (Programs c) →
  let c' := cfg (RemoveProgram E prog (mkState c w)).2 in
  NoDup (Packages c') ∧ NoDup (Programs c').
Proof.
  intros Hpk Hpr c'. subst c'.
  destruct (decide (prog ∈ Programs c)) as [Hin|Hn].
  - destruct (elem_of_first_split _ _ Hin) as (pre & post & Hl & Hpre).
    rewrite (RemoveProgram_first E prog pre post) by done. cbv zeta.
    rewrite Hl in Hpr. apply NoDup_remove_middle in Hpr.
    destruct (Validate c); [done|]. by rewrite Save_cfg.
  - by rewrite RemoveProgram_absent.
Qed.

(** [AddProgram] with a name the list already holds leaves it there twice,
    whatever validation and [Save] answer. *)
Lemma AddProgram_present_duplicates (prog : string) (c : Config) (w : World) :
  prog ∈ Programs c →
  ¬ NoDup (Programs (cfg (AddProgram E prog (mkState c w)).2)).
Proof.
  intros Hin Hnd.
  assert (Hprogs : Programs (cfg (AddProgram E prog (mkState c w)).2)
                   = Programs c ++ [prog]).
  { rewrite AddProgram_step. cbv zeta.
    destruct (Validate c); [done|]. by rewrite Save_cfg. }
  rewrite Hprogs in Hnd. apply NoDup_app in Hnd as (_ & Hdis & _).
  apply (Hdis prog Hin). by left.
Qed.

End NoDuplicates.

(** C4: [AddProgram] does not keep the program list free of duplicates.
    On a configuration that validates and whose two lists hold no name
    twice, adding a program that the list already holds succeeds, writes
    the file, and leaves the name twice in the program list. *)
Theorem AddProgram_duplicates_name :
  let r := AddProgram sample_env "dircolors" (mkState sample settled_world) in
  Validate sample = None
  ∧ NoDup (Packages sample) ∧ NoDup (Programs sample)
  ∧ r.1 = inr tt
  ∧ Programs (cfg r.2) = ["dircolors"; "dircolors"]
  ∧ ¬ NoDup (Programs (cfg r.2))
  ∧ files (world r.2) !! "/home/jane/.config/home-manager/.fleek.yml"
    = Some "shell: zsh; packages: helix, htop; programs: dircolors, dircolors".
Proof.
  intros r.
  assert (Hr : r.1 = inr tt ∧ Programs (cfg r.2) = ["dircolors"; "dircolors"]
               ∧ files (world r.2) !! "/home/jane/.config/home-manager/.fleek.yml"
                 = Some "shell: zsh; packages: helix, htop; programs: dircolors, dircolors")
    by (vm_compute; done).
  destruct Hr as (Hok & Hprogs & Hfile).
  split; [reflexivity|].
  split; [by apply (bool_decide_unpack _)|].
  split; [by apply (bool_decide_unpack _)|].
  split; [done|]. split; [done|]. split; [|done].
  rewrite Hprogs. intros Hnd. apply NoDup_cons in Hnd as [Hn _].
  apply Hn. left.
Qed.

(** ** [Eject] against [AddPackage] on an invalid shell *)

(** C7, as amended: on a configuration whose shell is not bash or zsh,
    [Eject] sets [Ejected] and, validation not being called, returns nil
    and writes the file whenever the location is found, the YAML calls
    succeed and the write is allowed.  On the same configuration
    [AddPackage] with a name not yet in the list persists nothing and
    keeps the appended name in memory; it returns the invalid-shell error
    when the flake directory is not empty, and the missing-flakedir error
    when it is empty. *)
Theorem Eject_skips_validation (E : Env) (c : Config) (w : World) :
  ¬ valid_shell (Shell c) →
  Ejected (cfg (Eject E (mkState c w)).2) = true
  ∧ (∀ cfile bb m n,
       Location E (set_Ejected true c) = inr cfile →
       yaml_Marshal E (set_Ejected true c) = inr bb →
       yaml_Unmarshal E bb = inr m →
       yaml_Marshal_map E m = inr n →
       cfile ∉ denied w →
       Eject E (mkState c w)
       = (inr tt, mkState (set_Ejected true c) (set_files (<[cfile := n]> (files w)) w)))
  ∧ (∀ pack, pack ∉ Packages c → FlakeDir c ≠ "" →
       AddPackage E pack (mkState c w)
       = (inl ErrInvalidShell, mkState (set_Packages (Packages c ++ [pack]) c) w))
  ∧ (∀ pack, pack ∉ Packages c → FlakeDir c = "" →
       AddPackage E pack (mkState c w)
       = (inl ErrMissingFlakeDir, mkState (set_Packages (Packages c ++ [pack]) c) w)).
Proof.
  intros Hshell. repeat split.
  - unfold Eject, render, os_WriteFile. run_steps.
  - intros cfile bb m n Hloc Hbb Hm Hn Hden.
    unfold Eject, render, os_WriteFile. unfold_calls.
    rewrite Hloc. cbn [cfg world]. rewrite Hbb, Hm, Hn. cbn [cfg world].
    by rewrite decide_False.
  - intros pack Hpack Hf. rewrite AddPackage_absent by done. cbv zeta.
    by rewrite Validate_invalid_shell.
  - intros pack Hpack Hf. rewrite AddPackage_absent by done. cbv zeta.
    by rewrite Validate_missing_flakedir.
Qed.

Lemma Eject_skips_validation_witness :
  Eject sample_env (mkState fish_config settled_world)
  = (inr tt,
     mkState (set_Ejected true fish_config)
       (set_files (<["/home/jane/.config/home-manager/.fleek.yml"
                     := "shell: fish; packages: helix, htop; programs: dircolors; ejected"]>
                     (files settled_world)) settled_world))
  ∧ AddPackage sample_env "jq" (mkState fish_config settled_world)
    = (inl ErrInvalidShell,
       mkState (set_Packages ["helix"; "htop"; "jq"] fish_config) settled_world)
  ∧ AddPackage sample_env "jq" (mkState (set_FlakeDir "" fish_config) settled_world)
    = (inl ErrMissingFlakeDir,
       mkState (set_Packages ["helix"; "htop"; "jq"] (set_FlakeDir "" fish_config))
               settled_world).
Proof.
  assert (Hfish : ∀ c, Shell c = "fish" → ¬ valid_shell (Shell c)).
  { intros c -> [H|H]; discriminate H. }
  assert (Hjq : "jq" ∉ ["helix"; "htop"]).
  { intros H. repeat (apply elem_of_cons in H as [H|H]; [discriminate H|]).
    inversion H. }
  split; [|split].
  - apply (proj1 (proj2 (Eject_skips_validation sample_env fish_config settled_world
                           (Hfish fish_config eq_refl)))
             "/home/jane/.config/home-manager/.fleek.yml"
             "shell: fish; packages: helix, htop; programs: dircolors; ejected"
             "shell: fish; packages: helix, htop; programs: dircolors; ejected"
             "shell: fish; packages: helix, htop; programs: dircolors; ejected");
      try reflexivity.
    apply not_elem_of_empty.
  - apply (proj1 (proj2 (proj2 (Eject_skips_validation sample_env fish_config
                                  settled_world (Hfish fish_config eq_refl))))
             "jq" Hjq).
    discriminate.
  - apply (proj2 (proj2 (proj2 (Eject_skips_validation sample_env
                                  (set_FlakeDir "" fish_config) settled_world
                                  (Hfish (set_FlakeDir "" fish_config) eq_refl))))
             "jq" Hjq).
    reflexivity.
Defined.

(** C7, as stated, fails on a configuration whose flake directory is empty
    as well: the shell is invalid, the name is not yet in the list, and
    [AddPackage] returns the missing-flakedir error, not the invalid-shell
    error. *)
Lemma AddPackage_invalid_shell_counterexample :
  let c := set_FlakeDir "" fish_config in
  let r := AddPackage sample_env "jq" (mkState c settled_world) in
  Shell c = "fish" ∧ (¬ valid_shell (Shell c)) ∧ ("jq" ∉ Packages c)
  ∧ r.1 = inl ErrMissingFlakeDir ∧ r.1 ≠ inl ErrInvalidShell.
Proof.
  intros c r. split; [reflexivity|]. split; [|split; [|split]].
  - intros [H|H]; discriminate H.
  - intros H. repeat (apply elem_of_cons in H as [H|H]; [discriminate H|]).
    inversion H.
  - reflexivity.
  - discriminate.
Qed.

(** ** [WriteSampleConfig] without the force flag *)

(** C8: when the identity of the host is resolved, the location of the
    configuration file is found, the flake directory is made without
    touching that file, and a file is already there, [WriteSampleConfig]
    called with [force = false] returns the refuse-to-overwrite error; it
    makes no call that writes, so the file holds the bytes it held. *)
Theorem WriteSampleConfig_refuses_overwrite
        (E : Env) (location email name : string) (w w1 : World)
        (sys : System) (cfile : string) :
  NewSystem E name email = inr sys →
  Location E (sample_config location sys) = inr cfile →
  MakeFlakeDir E (sample_config location sys) w = (inr tt, w1) →
  files w1 !! cfile = files w !! cfile →
  is_Some (files w !! cfile) →
  let r := WriteSampleConfig E location email name false w in
  r.1 = inl ErrRefuseOverwrite
  ∧ r.2 = w1
  ∧ files r.2 !! cfile = files w !! cfile.
Proof.
  intros Hsys Hloc Hdir Hframe Hfile r.
  assert (Hr : r = (inl ErrRefuseOverwrite, w1)).
  { subst r. unfold WriteSampleConfig. unfold_calls.
    rewrite Hsys. cbn beta iota. rewrite Hloc. cbn beta iota. rewrite Hdir.
    cbn beta iota. unfold os_Stat.
    destruct (decide (cfile ∈ denied w1)); [reflexivity|].
    assert (Hex : exists_at cfile w1 = true).
    { unfold exists_at. rewrite Hframe. by rewrite (bool_decide_eq_true_2 _ Hfile). }
    by rewrite Hex. }
  rewrite Hr. by repeat split.
Qed.

Lemma WriteSampleConfig_refuses_overwrite_witness :
  let r := WriteSampleConfig sample_env ".config/home-manager" "jane@example.com"
             "Jane Doe" false settled_world in
  r.1 = inl ErrRefuseOverwrite
  ∧ r.2 = settled_world
  ∧ files r.2 !! "/home/jane/.config/home-manager/.fleek.yml"
    = files settled_world !! "/home/jane/.config/home-manager/.fleek.yml".
Proof.
  apply (WriteSampleConfig_refuses_overwrite
           sample_env ".config/home-manager" "jane@example.com" "Jane Doe"
           settled_world settled_world linux_box
           "/home/jane/.config/home-manager/.fleek.yml").
  - reflexivity.
  - reflexivity.
  - reflexivity.
  - reflexivity.
  - exists "shell: zsh". reflexivity.
Defined.

(** Where no file is there yet, the same call writes the sample
    configuration and links it from the home directory. *)
Example WriteSampleConfig_fresh :
  let r := WriteSampleConfig sample_env ".config/home-manager" "jane@example.com"
             "Jane Doe" false empty_world in
  r.1 = inr tt
  ∧ files r.2 !! "/home/jane/.config/home-manager/.fleek.yml"
    = Some "shell: bash; packages: helix; programs: dircolors"
  ∧ symlinks r.2 !! "/home/jane/.fleek.yml"
    = Some "/home/jane/.config/home-manager/.fleek.yml".
Proof. vm_compute. done. Qed.

(** With the force flag the existing file is written again; the link that
    is already in the home directory then makes [os.Symlink] fail. *)
Example WriteSampleConfig_forced :
  let r := WriteSampleConfig sample_env ".config/home-manager" "jane@example.com"
             "Jane Doe" true settled_world in
  r.1 = inl ErrExist
  ∧ files r.2 !! "/home/jane/.config/home-manager/.fleek.yml"
    = Some "shell: bash; packages: helix; programs: dircolors".
Proof. vm_compute. done. Qed.

(** Whatever the collaborators answer, a call without the force flag
    leaves a file that is at the canonical location as it is, as long as
    making the flake directory does. *)
Lemma WriteSampleConfig_without_force_keeps_file
      (E : Env) (location email name : string) (w : World) (cfile : string) :
  (∀ c w0 r w', MakeFlakeDir E c w0 = (r, w') → files w' !! cfile = files w0 !! cfile) →
  (∀ sys, NewSystem E name email = inr sys →
          Location E (sample_config location sys) = inr cfile) →
  is_Some (files w !! cfile) →
  files (WriteSampleConfig E location email name false w).2 !! cfile
  = files w !! cfile.
Proof.
  intros Hframe Hloc Hfile. unfold WriteSampleConfig. unfold_calls.
  destruct (NewSystem E name email) as [err|sys] eqn:Hsys; [reflexivity|].
  cbn beta iota. rewrite (Hloc sys eq_refl). cbn beta iota.
  destruct (MakeFlakeDir E (sample_config location sys) w) as [[err|[]] w1] eqn:Hdir;
    cbn beta iota; [exact (Hframe _ _ _ _ Hdir)|].
  unfold os_Stat.
  destruct (decide (cfile ∈ denied w1)); [exact (Hframe _ _ _ _ Hdir)|].
  assert (Hex : exists_at cfile w1 = true).
  { unfold exists_at. rewrite (Hframe _ _ _ _ Hdir).
    by rewrite (bool_decide_eq_true_2 _ Hfile). }
  rewrite Hex. exact (Hframe _ _ _ _ Hdir).
Qed.

(** ** Error messages *)

Example ErrInvalidShell_message :
  Error_message ErrInvalidShell = "fleek.yml: invalid shell, valid shells are: bash, zsh".
Proof. reflexivity. Qed.

Example ErrInvalidOperatingSystem_message :
  Error_message ErrInvalidOperatingSystem
  = "fleek.yml: invalid OS, valid operating systems are: linux, darwin".
Proof. reflexivity. Qed.

(** * Further properties *)

(** ** What a write leaves *)

Lemma render_pure {S : Type} (E : Env) (c : Config) (s : S) :
  render E c s = (yaml_text E c, s).
Proof.
  unfold yaml_text, render. unfold_calls.
  destruct (yaml_Marshal E c) as [err|bb]; [done|]. simpl.
  destruct (yaml_Unmarshal E bb) as [err|m]; [done|]. simpl.
  by destruct (yaml_Marshal_map E m) as [err|n].
Qed.

Lemma Save_run (E : Env) (c : Config) (w : World) :
  Save E (mkState c w) =
  match Location E c with
  | inl err => (inl err, mkState c w)
  | inr cfile =>
      if decide (cfile ∈ denied w) then (inl ErrPermission, mkState c w)
      else match yaml_text E c with
           | inl err => (inl err, mkState c (with_file cfile "" w))
           | inr n => (inr tt, mkState c (with_file cfile n w))
           end
  end.
Proof.
  unfold Save. unfold_calls.
  destruct (Location E c) as [err|cfile]; [done|]. simpl.
  unfold os_Create. destruct (decide (cfile ∈ denied w)) as [Hden|Hden]; [done|].
  simpl. rewrite render_pure.
  destruct (yaml_text E c) as [err|n]; [done|]. simpl.
  unfold File_WriteString, with_file, set_files. simpl.
  rewrite lookup_insert_eq, insert_insert_eq. reflexivity.
Qed.

Lemma Eject_run (E : Env) (c : Config) (w : World) :
  Eject E (mkState c w) =
  let c' := set_Ejected true c in
  match Location E c' with
  | inl err => (inl err, mkState c' w)
  | inr cfile =>
      match yaml_text E c' with
      | inl err => (inl err, mkState c' w)
      | inr n =>
          if decide (cfile ∈ denied w) then (inl ErrPermission, mkState c' w)
          else (inr tt, mkState c' (with_file cfile n w))
      end
  end.
Proof.
  unfold Eject. unfold_calls. cbv zeta.
  destruct (Location E (set_Ejected true c)) as [err|cfile]; [done|]. simpl.
  rewrite render_pure.
  destruct (yaml_text E (set_Ejected true c)) as [err|n]; [done|]. simpl.
  unfold os_WriteFile. by destruct (decide (cfile ∈ denied w)).
Qed.

(** ** Validation, further *)

(** X1: [isValueInList] answers true exactly when the value is an
    element of the list, and false exactly when it is not; on the empty
    list it answers false. *)
Theorem isValueInList_decides_membership (value : string) (l : list string) :
  (isValueInList value l = true ↔ value ∈ l)
  ∧ (isValueInList value l = false ↔ value ∉ l)
  ∧ isValueInList value [] = false.
Proof.
  split; [apply isValueInList_elem_of|]. split; [|reflexivity].
  rewrite <- isValueInList_elem_of.
  destruct (isValueInList value l); split; intros H;
    first [done | by destruct H].
Qed.

Lemma Validate_systems_app_cases (l1 l2 : list System) :
  Validate_systems (l1 ++ l2) =
  match Validate_systems l1 with
  | Some err => Some err
  | None => Validate_systems l2
  end.
Proof.
  induction l1 as [|sys l1 IH]; [done|]. cbn [Validate_systems app].
  destruct (isValueInList (Arch sys) architectures); [|done].
  destruct (isValueInList (OS sys) operatingSystems); [|done].
  exact IH.
Qed.

(** X2: over two lists of systems put end to end, the loop of [Validate]
    returns the error of the first list when it has one and otherwise the
    answer for the second list; so a configuration that validates still
    validates after a system is appended exactly when that system's
    architecture and operating system are in their sets. *)
Theorem Validate_systems_appended (c : Config) (l1 l2 : list System) (sys : System) :
  Validate_systems (l1 ++ l2) =
  match Validate_systems l1 with
  | Some err => Some err
  | None => Validate_systems l2
  end
  ∧ (Validate c = None →
     (Validate (set_Systems (Systems c ++ [sys]) c) = None ↔ valid_system sys)).
Proof.
  split; [apply Validate_systems_app_cases|].
  intros Hv. unfold Validate in *. cbn [FlakeDir Shell Bling Systems set_Systems].
  destruct (String.eqb (FlakeDir c) ""); [done|].
  destruct (isValueInList (Shell c) shells); [|done].
  destruct (isValueInList (Bling c) blingLevels); [|done].
  cbn [negb] in *. rewrite Validate_systems_app_cases, Hv.
  split.
  - intros H. apply Validate_systems_None in H. by apply Forall_inv in H.
  - intros H. apply Validate_systems_valid. by constructor.
Qed.

Lemma Validate_systems_appended_witness :
  (Validate (set_Systems (Systems sample ++ [linux_box]) sample) = None
   ↔ valid_system linux_box)
  ∧ (Validate (set_Systems (Systems sample ++ [riscv_linux]) sample) = None
     ↔ valid_system riscv_linux).
Proof.
  split.
  - apply (proj2 (Validate_systems_appended sample [] [] linux_box)). reflexivity.
  - apply (proj2 (Validate_systems_appended sample [] [] riscv_linux)). reflexivity.
Defined.


(** ** [NewSystem] *)

(** X4: [NewSystem] succeeds exactly when both the user name and the host
    name are found; the error of the user name comes before that of the
    host name; the system it returns carries the names it was given, and
    its home directory is under [/Users] on darwin and under [/home] on
    every other platform. *)
Theorem NewSystem_identity (E : Env) (name email : string) :
  (∀ sys, NewSystem E name email = inr sys ↔
          ∃ user host, core_Username E = inr user ∧ core_Hostname E = inr host
                       ∧ sys = mkSystem host user (core_Arch E) (runtime_GOOS E)
                                        (mkGitConfig name email))
  ∧ (∀ err, core_Username E = inl err → NewSystem E name email = inl err)
  ∧ (∀ sys user, NewSystem E name email = inr sys → core_Username E = inr user →
       Git sys = mkGitConfig name email
       ∧ HomeDir sys = (if String.eqb (runtime_GOOS E) "darwin"
                        then "/Users/" else "/home/") +:+ user).
Proof.
  unfold NewSystem. split; [|split].
  - intros sys. split.
    + destruct (core_Username E) as [e|user]; [done|].
      destruct (core_Hostname E) as [e|host]; [done|].
      intros [= <-]. by exists user, host.
    + intros (user & host & -> & -> & ->). reflexivity.
  - by intros err ->.
  - intros sys user Hsys Hu. rewrite Hu in Hsys.
    destruct (core_Hostname E) as [e|host]; [done|]. injection Hsys as <-.
    split; [done|]. unfold HomeDir. cbn [OS Username].
    by destruct (String.eqb (runtime_GOOS E) "darwin").
Qed.

Lemma NewSystem_identity_witness :
  NewSystem sample_env "Jane Doe" "jane@example.com" = inr linux_box
  ∧ HomeDir linux_box = "/home/jane"
  ∧ NewSystem (mkEnv (inl ErrPermission) (inl ErrNotExist) "x86_64" "linux"
                     (inr "/home/jane") (λ c, inl ErrNotExist) (λ c w, (inr tt, w))
                     string (λ c, inl ErrNotExist) inr inr)
              "Jane Doe" "jane@example.com" = inl ErrPermission.
Proof.
  split; [|split].
  - apply (proj1 (NewSystem_identity sample_env "Jane Doe" "jane@example.com")).
    exists "jane", "box". by repeat split.
  - apply (proj2 (proj2 (NewSystem_identity sample_env "Jane Doe" "jane@example.com"))
             linux_box "jane"); reflexivity.
  - apply (proj1 (proj2 (NewSystem_identity _ "Jane Doe" "jane@example.com"))).
    reflexivity.
Defined.

(** ** The receiver after an operation *)

Lemma set_Packages_same (c : Config) : set_Packages (Packages c) c = c.
Proof. by destruct c. Qed.

Lemma set_Programs_same (c : Config) : set_Programs (Programs c) c = c.
Proof. by destruct c. Qed.

Lemma commit_cfg (E : Env) (v : option Error) (c' : Config) (w : World) :
  cfg (match v with
       | Some err => (inl err, mkState c' w)
       | None => Save E (mkState c' w)
       end).2 = c'.
Proof. destruct v; [done|]. by rewrite Save_cfg. Qed.

Lemma AddPackage_cfg (E : Env) (name : string) (c : Config) (w : World) :
  ∃ l, cfg (AddPackage E name (mkState c w)).2 = set_Packages l c.
Proof.
  destruct (decide (name ∈ Packages c)) as [Hin|Hn].
  - exists (Packages c). by rewrite AddPackage_present, set_Packages_same.
  - eexists. rewrite AddPackage_absent by done. apply commit_cfg.
Qed.

Lemma RemovePackage_cfg (E : Env) (name : string) (c : Config) (w : World) :
  ∃ l, cfg (RemovePackage E name (mkState c w)).2 = set_Packages l c.
Proof.
  destruct (decide (name ∈ Packages c)) as [Hin|Hn].
  - destruct (elem_of_first_split _ _ Hin) as (pre & post & Hl & Hpre).
    eexists. rewrite (RemovePackage_first E name pre post) by done. apply commit_cfg.
  - exists (Packages c). by rewrite RemovePackage_absent, set_Packages_same.
Qed.

Lemma AddProgram_cfg (E : Env) (name : string) (c : Config) (w : World) :
  ∃ l, cfg (AddProgram E name (mkState c w)).2 = set_Programs l c.
Proof. eexists. rewrite AddProgram_step. apply commit_cfg. Qed.

Lemma RemoveProgram_cfg (E : Env) (name : string) (c : Config) (w : World) :
  ∃ l, cfg (RemoveProgram E name (mkState c w)).2 = set_Programs l c.
Proof.
  destruct (decide (name ∈ Programs c)) as [Hin|Hn].
  - destruct (elem_of_first_split _ _ Hin) as (pre & post & Hl & Hpre).
    eexists. rewrite (RemoveProgram_first E name pre post) by done. apply commit_cfg.
  - exists (Programs c). by rewrite RemoveProgram_absent, set_Programs_same.
Qed.

Lemma Eject_cfg (E : Env) (c : Config) (w : World) :
  cfg (Eject E (mkState c w)).2 = set_Ejected true c.
Proof.
  rewrite Eject_run. cbv zeta.
  destruct (Location E (set_Ejected true c)); [done|].
  destruct (yaml_text E (set_Ejected true c)); [done|].
  by destruct (decide _).
Qed.

(** X5: each operation changes one field of the receiver and no other:
    [AddPackage] and [RemovePackage] the package list, [AddProgram] and
    [RemoveProgram] the program list, [Eject] the ejected flag.  Hence
    [Validate] answers after the operation what it answered before: no
    operation makes a valid configuration invalid or an invalid one
    valid. *)
Theorem operations_change_one_field (E : Env) (name : string) (c : Config) (w : World) :
  let s := mkState c w in
  (∃ l, cfg (AddPackage E name s).2 = set_Packages l c)
  ∧ (∃ l, cfg (RemovePackage E name s).2 = set_Packages l c)
  ∧ (∃ l, cfg (AddProgram E name s).2 = set_Programs l c)
  ∧ (∃ l, cfg (RemoveProgram E name s).2 = set_Programs l c)
  ∧ cfg (Eject E s).2 = set_Ejected true c
  ∧ Validate (cfg (AddPackage E name s).2) = Validate c
  ∧ Validate (cfg (RemovePackage E name s).2) = Validate c
  ∧ Validate (cfg (AddProgram E name s).2) = Validate c
  ∧ Validate (cfg (RemoveProgram E name s).2) = Validate c
  ∧ Validate (cfg (Eject E s).2) = Validate c.
Proof.
  intros s. subst s.
  destruct (AddPackage_cfg E name c w) as [l1 H1].
  destruct (RemovePackage_cfg E name c w) as [l2 H2].
  destruct (AddProgram_cfg E name c w) as [l3 H3].
  destruct (RemoveProgram_cfg E name c w) as [l4 H4].
  pose proof (Eject_cfg E c w) as H5.
  rewrite H1, H2, H3, H4, H5.
  repeat split; eauto.
Qed.

(** ** When an operation succeeds *)

Lemma commit_success (E : Env) (c c' : Config) (w : World) (s' : State) :
  Validate c' = Validate c →
  match Validate c with
  | Some err => (inl err, mkState c' w)
  | None => Save E (mkState c' w)
  end = (inr tt, s') ↔ saved E c' w s'.
Proof.
  intros Hv. unfold saved. rewrite Hv.
  destruct (Validate c) as [err|].
  { split; [done|]. by intros [? _]. }
  rewrite Save_run.
  destruct (Location E c') as [err|cfile].
  { split; [done|]. by intros (_ & ? & ? & ? & _). }
  destruct (decide (cfile ∈ denied w)) as [Hden|Hden].
  { split; [done|]. intros (_ & ? & ? & [= <-] & ? & _). done. }
  destruct (yaml_text E c') as [err|n].
  { split; [done|]. by intros (_ & ? & ? & _ & _ & ? & _). }
  split.
  - intros [= <-]. split; [done|]. by exists cfile, n.
  - intros (_ & ? & ? & [= <-] & _ & [= <-] & ->). done.
Qed.

(** X6: an operation returns nil in these cases only.  [AddPackage]:
    the name was already in the list and nothing changed, or it was not,
    the configuration with the name appended validates and its text was
    written at its location.  [AddProgram]: the configuration with the
    name appended validates and was written.  [RemovePackage] and
    [RemoveProgram]: the name was in the list, and the configuration
    without its first occurrence validates and was written. *)
Theorem success_means_valid_and_written
        (E : Env) (name : string) (c : Config) (w : World) (s' : State) :
  (AddPackage E name (mkState c w) = (inr tt, s') ↔
   (name ∈ Packages c ∧ s' = mkState c w)
   ∨ ((name ∉ Packages c) ∧ saved E (set_Packages (Packages c ++ [name]) c) w s'))
  ∧ (AddProgram E name (mkState c w) = (inr tt, s') ↔
     saved E (set_Programs (Programs c ++ [name]) c) w s')
  ∧ (RemovePackage E name (mkState c w) = (inr tt, s') ↔
     ∃ pre post, Packages c = pre ++ name :: post ∧ (name ∉ pre)
                 ∧ saved E (set_Packages (pre ++ post) c) w s')
  ∧ (RemoveProgram E name (mkState c w) = (inr tt, s') ↔
     ∃ pre post, Programs c = pre ++ name :: post ∧ (name ∉ pre)
                 ∧ saved E (set_Programs (pre ++ post) c) w s').
Proof.
  split; [|split; [|split]].
  - destruct (decide (name ∈ Packages c)) as [Hin|Hn].
    + rewrite AddPackage_present by done. split.
      * intros [= <-]. by left.
      * intros [[_ ->]|[Hn _]]; done.
    + rewrite AddPackage_absent by done. cbv zeta.
      rewrite commit_success by done. split; [by right|].
      by intros [[Hin _]|[_ H]].
  - rewrite AddProgram_step. cbv zeta. by rewrite commit_success.
  - destruct (decide (name ∈ Packages c)) as [Hin|Hn].
    + destruct (elem_of_first_split _ _ Hin) as (pre & post & Hl & Hpre).
      rewrite (RemovePackage_first E name pre post) by done. cbv zeta.
      rewrite commit_success by done. split.
      * intros H. by exists pre, post.
      * intros (pre' & post' & Hl' & Hpre' & H).
        assert (Hi : Some (length pre) = Some (length pre')).
        { rewrite <- (search_index_first name pre post) by done.
          rewrite <- (search_index_first name pre' post') by done. congruence. }
        injection Hi as Hi. rewrite Hl in Hl'.
        apply app_inj_1 in Hl' as [-> [= ->]]; done.
    + rewrite RemovePackage_absent by done. split; [done|].
      intros (pre & post & Hl & _ & _). destruct Hn. rewrite Hl.
      apply elem_of_app. right. by left.
  - destruct (decide (name ∈ Programs c)) as [Hin|Hn].
    + destruct (elem_of_first_split _ _ Hin) as (pre & post & Hl & Hpre).
      rewrite (RemoveProgram_first E name pre post) by done. cbv zeta.
      rewrite commit_success by done. split.
      * intros H. by exists pre, post.
      * intros (pre' & post' & Hl' & Hpre' & H).
        assert (Hi : Some (length pre) = Some (length pre')).
        { rewrite <- (search_index_first name pre post) by done.
          rewrite <- (search_index_first name pre' post') by done. congruence. }
        injection Hi as Hi. rewrite Hl in Hl'.
        apply app_inj_1 in Hl' as [-> [= ->]]; done.
    + rewrite RemoveProgram_absent by done. split; [done|].
      intros (pre & post & Hl & _ & _). destruct Hn. rewrite Hl.
      apply elem_of_app. right. by left.
Qed.

Lemma success_means_valid_and_written_witness :
  AddProgram sample_env "bat" (mkState sample settled_world)
  = (inr tt,
     mkState (set_Programs ["dircolors"; "bat"] sample)
       (with_file "/home/jane/.config/home-manager/.fleek.yml"
          "shell: zsh; packages: helix, htop; programs: dircolors, bat"
          settled_world))
  ∧ RemovePackage sample_env "htop" (mkState sample settled_world)
    = (inr tt,
       mkState (set_Packages ["helix"] sample)
         (with_file "/home/jane/.config/home-manager/.fleek.yml"
            "shell: zsh; packages: helix; programs: dircolors" settled_world)).
Proof.
  split.
  - apply (proj1 (proj2 (success_means_valid_and_written
                           sample_env "bat" sample settled_world _))).
    split; [reflexivity|].
    exists "/home/jane/.config/home-manager/.fleek.yml",
           "shell: zsh; packages: helix, htop; programs: dircolors, bat".
    split; [reflexivity|]. split; [apply not_elem_of_empty|]. by split.
  - apply (proj1 (proj2 (proj2 (success_means_valid_and_written
                                  sample_env "htop" sample settled_world _)))).
    exists ["helix"], []. split; [reflexivity|]. split.
    + intros H. apply elem_of_cons in H as [H|H]; [discriminate H | inversion H].
    + split; [reflexivity|].
      exists "/home/jane/.config/home-manager/.fleek.yml",
             "shell: zsh; packages: helix; programs: dircolors".
      split; [reflexivity|]. split; [apply not_elem_of_empty|]. by split.
Defined.

(** ** [Save] *)



(** X8: [Save] creates the file before it calls the YAML library: when
    the location is found and the file may be created but a YAML call
    fails, [Save] returns that error and leaves the file empty, whatever
    it held before. *)
Theorem Save_failed_yaml_empties_file
        (E : Env) (c : Config) (w : World) (cfile : string) (err : Error) :
  Location E c = inr cfile → cfile ∉ denied w → yaml_text E c = inl err →
  Save E (mkState c w) = (inl err, mkState c (with_file cfile "" w))
  ∧ files (world (Save E (mkState c w)).2) !! cfile = Some "".
Proof.
  intros Hloc Hden Hy. rewrite Save_run, Hloc, decide_False, Hy by done.
  split; [done|]. simpl. apply lookup_insert_eq.
Qed.

Lemma Save_failed_yaml_empties_file_witness :
  files settled_world !! "/home/jane/.config/home-manager/.fleek.yml" = Some "shell: zsh"
  ∧ files (world (Save broken_yaml_env (mkState sample settled_world)).2)
      !! "/home/jane/.config/home-manager/.fleek.yml" = Some ""
  ∧ (AddProgram broken_yaml_env "bat" (mkState sample settled_world)).1
    = inl (ErrOther "yaml: cannot marshal").
Proof.
  split; [reflexivity|]. split.
  - apply (Save_failed_yaml_empties_file broken_yaml_env sample settled_world
             "/home/jane/.config/home-manager/.fleek.yml"
             (ErrOther "yaml: cannot marshal"));
      [reflexivity | apply not_elem_of_empty | reflexivity].
  - reflexivity.
Defined.

(** ** [Eject], further *)

Lemma with_file_twice (name d d' : string) (w : World) :
  with_file name d (with_file name d' w) = with_file name d w.
Proof. unfold with_file, set_files. simpl. by rewrite insert_insert_eq. Qed.

(** X9: [Eject] makes the YAML text before the one call that writes:
    when the location is not found, or when a YAML call fails, it returns
    that error without any call to the file system, which is as it was;
    the receiver keeps [Ejected] set all the same, the flag is not put
    back. *)
Theorem Eject_fails_before_writing (E : Env) (c : Config) (w : World) (err : Error) :
  (Location E (set_Ejected true c) = inl err →
   Eject E (mkState c w) = (inl err, mkState (set_Ejected true c) w))
  ∧ (∀ cfile, Location E (set_Ejected true c) = inr cfile →
       yaml_text E (set_Ejected true c) = inl err →
       Eject E (mkState c w) = (inl err, mkState (set_Ejected true c) w)).
Proof.
  split.
  - intros Hloc. rewrite Eject_run. cbv zeta. by rewrite Hloc.
  - intros cfile Hloc Hy. rewrite Eject_run. cbv zeta. by rewrite Hloc, Hy.
Qed.

Lemma Eject_fails_before_writing_witness :
  Eject broken_yaml_env (mkState sample settled_world)
  = (inl (ErrOther "yaml: cannot marshal"),
     mkState (set_Ejected true sample) settled_world).
Proof.
  apply (proj2 (Eject_fails_before_writing broken_yaml_env sample settled_world
                  (ErrOther "yaml: cannot marshal"))
           "/home/jane/.config/home-manager/.fleek.yml");
    reflexivity.
Defined.

(** X10: [Eject] is idempotent: a second call returns what the first
    returned and leaves the state the first left. *)
Theorem Eject_idempotent (E : Env) (s : State) :
  Eject E (Eject E s).2 = Eject E s.
Proof.
  destruct s as [c w]. rewrite (Eject_run E c w). cbv zeta.
  destruct (Location E (set_Ejected true c)) as [e|cfile] eqn:Hloc.
  { simpl. rewrite Eject_run. cbv zeta.
    change (set_Ejected true (set_Ejected true c)) with (set_Ejected true c).
    by rewrite Hloc. }
  destruct (yaml_text E (set_Ejected true c)) as [e|n] eqn:Hy.
  { simpl. rewrite Eject_run. cbv zeta.
    change (set_Ejected true (set_Ejected true c)) with (set_Ejected true c).
    by rewrite Hloc, Hy. }
  destruct (decide (cfile ∈ denied w)) as [Hd|Hd]; simpl; rewrite Eject_run; cbv zeta;
    change (set_Ejected true (set_Ejected true c)) with (set_Ejected true c);
    rewrite Hloc, Hy.
  - by rewrite decide_True.
  - change (denied (with_file cfile n w)) with (denied w).
    by rewrite decide_False, with_file_twice.
Qed.

(** ** What the operations never touch *)





(** ** Adding then removing, removing then adding *)

Lemma AddPackage_absent_cfg (E : Env) (name : string) (c : Config) (w : World) :
  name ∉ Packages c →
  cfg (AddPackage E name (mkState c w)).2 = set_Packages (Packages c ++ [name]) c.
Proof. intros Hn. rewrite AddPackage_absent by done. apply commit_cfg. Qed.

Lemma AddProgram_step_cfg (E : Env) (name : string) (c : Config) (w : World) :
  cfg (AddProgram E name (mkState c w)).2 = set_Programs (Programs c ++ [name]) c.
Proof. rewrite AddProgram_step. apply commit_cfg. Qed.

Lemma RemovePackage_first_cfg (E : Env) (name : string) (pre post : list string)
      (c : Config) (w : World) :
  Packages c = pre ++ name :: post → name ∉ pre →
  cfg (RemovePackage E name (mkState c w)).2 = set_Packages (pre ++ post) c.
Proof.
  intros Hl Hn. rewrite (RemovePackage_first E name pre post) by done.
  apply commit_cfg.
Qed.

Lemma RemoveProgram_first_cfg (E : Env) (name : string) (pre post : list string)
      (c : Config) (w : World) :
  Programs c = pre ++ name :: post → name ∉ pre →
  cfg (RemoveProgram E name (mkState c w)).2 = set_Programs (pre ++ post) c.
Proof.
  intros Hl Hn. rewrite (RemoveProgram_first E name pre post) by done.
  apply commit_cfg.
Qed.

(** X12: [AddPackage] of a name that the list does not hold, followed by
    [RemovePackage] of that name, gives the receiver back as it was,
    whatever validation and the writes answer in between. *)
Theorem AddPackage_then_RemovePackage (E : Env) (name : string) (c : Config) (w : World) :
  name ∉ Packages c →
  cfg (RemovePackage E name (AddPackage E name (mkState c w)).2).2 = c.
Proof.
  intros Hn. pose proof (AddPackage_absent_cfg E name c w Hn) as H1.
  destruct (AddPackage E name (mkState c w)).2 as [c1 w1]. simpl in H1. subst c1.
  rewrite (RemovePackage_first_cfg E name (Packages c) []) by done.
  rewrite app_nil_r. by destruct c.
Qed.

Lemma AddPackage_then_RemovePackage_witness :
  cfg (RemovePackage sample_env "jq"
         (AddPackage sample_env "jq" (mkState sample settled_world)).2).2 = sample.
Proof.
  apply (AddPackage_then_RemovePackage sample_env "jq" sample settled_world).
  intros H. repeat (apply elem_of_cons in H as [H|H]; [discriminate H|]). inversion H.
Defined.

(** X13: [AddProgram] followed by [RemoveProgram] of the same name gives
    the program list back when it did not hold the name; when it did, the
    occurrence removed is the old first one and the new one stays at the
    end, so the list is a permutation of the original and no longer in
    its order. *)
Theorem AddProgram_then_RemoveProgram (E : Env) (name : string) (c : Config) (w : World) :
  let c2 := cfg (RemoveProgram E name (AddProgram E name (mkState c w)).2).2 in
  Programs c2 ≡ₚ Programs c
  ∧ (name ∉ Programs c → c2 = c)
  ∧ (∀ pre post, Programs c = pre ++ name :: post → name ∉ pre →
       Programs c2 = pre ++ post ++ [name]).
Proof.
  intros c2. subst c2. pose proof (AddProgram_step_cfg E name c w) as H1.
  destruct (AddProgram E name (mkState c w)).2 as [c1 w1]. simpl in H1. subst c1.
  assert (Habs : name ∉ Programs c →
                 cfg (RemoveProgram E name
                        (mkState (set_Programs (Programs c ++ [name]) c) w1)).2 = c).
  { intros Hn. rewrite (RemoveProgram_first_cfg E name (Programs c) []) by done.
    rewrite app_nil_r. by destruct c. }
  assert (Hpre : ∀ pre post, Programs c = pre ++ name :: post → name ∉ pre →
                 Programs (cfg (RemoveProgram E name
                        (mkState (set_Programs (Programs c ++ [name]) c) w1)).2)
                 = pre ++ post ++ [name]).
  { intros pre post Hl Hn.
    rewrite (RemoveProgram_first_cfg E name pre (post ++ [name])); [done| |done].
    simpl. rewrite Hl. by rewrite <- app_assoc. }
  split; [|split; done].
  destruct (decide (name ∈ Programs c)) as [Hin|Hn].
  - destruct (elem_of_first_split _ _ Hin) as (pre & post & Hl & Hp).
    rewrite (Hpre pre post Hl Hp), Hl.
    by rewrite (Permutation_app_comm post [name]).
  - by rewrite Habs.
Qed.

Lemma AddProgram_then_RemoveProgram_witness :
  cfg (RemoveProgram sample_env "bat"
         (AddProgram sample_env "bat" (mkState sample settled_world)).2).2 = sample
  ∧ Programs (cfg (RemoveProgram sample_env "bat"
         (AddProgram sample_env "bat" (mkState repeating settled_world)).2).2)
    = ["exa"; "bat"; "bat"; "bat"].
Proof.
  split.
  - apply (proj1 (proj2 (AddProgram_then_RemoveProgram
                           sample_env "bat" sample settled_world))).
    intros H. apply elem_of_cons in H as [H|H]; [discriminate H | inversion H].
  - apply (proj2 (proj2 (AddProgram_then_RemoveProgram
                           sample_env "bat" repeating settled_world))
             [] ["exa"; "bat"; "bat"]).
    + reflexivity.
    + intros H. inversion H.
Defined.

(** X14: [RemovePackage] of a name the list holds takes out one entry and
    keeps the others in their order: the list it leaves is a sublist of
    the original, one shorter, and with the name put back in front it is
    a permutation of the original.  [RemoveProgram] does the same on the
    program list. *)
Theorem Remove_keeps_order (E : Env) (name : string) (c : Config) (w : World) :
  (name ∈ Packages c →
   let l' := Packages (cfg (RemovePackage E name (mkState c w)).2) in
   l' `sublist_of` Packages c ∧ name :: l' ≡ₚ Packages c
   ∧ length (Packages c) = S (length l'))
  ∧ (name ∈ Programs c →
     let l' := Programs (cfg (RemoveProgram E name (mkState c w)).2) in
     l' `sublist_of` Programs c ∧ name :: l' ≡ₚ Programs c
     ∧ length (Programs c) = S (length l')).
Proof.
  assert (Hlist : ∀ pre post : list string,
             pre ++ post `sublist_of` pre ++ name :: post
             ∧ name :: pre ++ post ≡ₚ pre ++ name :: post
             ∧ length (pre ++ name :: post) = S (length (pre ++ post))).
  { intros pre post. split; [|split].
    - apply sublist_app; [done|]. by apply sublist_cons.
    - apply Permutation_middle.
    - rewrite !length_app. simpl. lia. }
  split; intros Hin l'; subst l';
    destruct (elem_of_first_split _ _ Hin) as (pre & post & Hl & Hp).
  - rewrite (RemovePackage_first_cfg E name pre post) by done. simpl.
    rewrite Hl. apply Hlist.
  - rewrite (RemoveProgram_first_cfg E name pre post) by done. simpl.
    rewrite Hl. apply Hlist.
Qed.

Lemma Remove_keeps_order_witness :
  let l' := Packages (cfg (RemovePackage sample_env "jq"
                             (mkState repeating settled_world)).2) in
  l' `sublist_of` Packages repeating ∧ "jq" :: l' ≡ₚ Packages repeating
  ∧ length (Packages repeating) = S (length l').
Proof.
  apply (proj1 (Remove_keeps_order sample_env "jq" repeating settled_world)).
  left.
Defined.

(** X15: [RemovePackage] followed by [AddPackage] of the same name is not
    the identity: when the list held the name once, the name moves to the
    end; when it held the name again later, [AddPackage] finds that
    occurrence and adds nothing, so the list stays one shorter. *)
Theorem RemovePackage_then_AddPackage
        (E : Env) (name : string) (pre post : list string) (c : Config) (w : World) :
  Packages c = pre ++ name :: post → name ∉ pre →
  let c2 := cfg (AddPackage E name (RemovePackage E name (mkState c w)).2).2 in
  (name ∉ post → Packages c2 = pre ++ post ++ [name])
  ∧ (name ∈ post → Packages c2 = pre ++ post).
Proof.
  intros Hl Hp c2. subst c2.
  pose proof (RemovePackage_first_cfg E name pre post c w Hl Hp) as H1.
  destruct (RemovePackage E name (mkState c w)).2 as [c1 w1]. simpl in H1. subst c1.
  split; intros Hpost.
  - rewrite AddPackage_absent_cfg; [simpl; by rewrite <- app_assoc|].
    simpl. intros Hin. apply elem_of_app in Hin as [Hin|Hin]; done.
  - rewrite AddPackage_present; [done|]. simpl. apply elem_of_app. by right.
Qed.

Lemma RemovePackage_then_AddPackage_witness :
  Packages (cfg (AddPackage sample_env "helix"
                   (RemovePackage sample_env "helix" (mkState sample settled_world)).2).2)
  = ["htop"; "helix"]
  ∧ Packages (cfg (AddPackage sample_env "jq"
                     (RemovePackage sample_env "jq" (mkState repeating settled_world)).2).2)
    = ["htop"; "jq"; "yq"; "jq"].
Proof.
  split.
  - apply (proj1 (RemovePackage_then_AddPackage
                    sample_env "helix" [] ["htop"] sample settled_world
                    eq_refl (not_elem_of_nil _))).
    intros H. apply elem_of_cons in H as [H|H]; [discriminate H | inversion H].
  - apply (proj2 (RemovePackage_then_AddPackage
                    sample_env "jq" [] ["htop"; "jq"; "yq"; "jq"] repeating settled_world
                    eq_refl (not_elem_of_nil _))).
    right. left.
Defined.

(** ** Reading what was written *)

Lemma exists_at_with_file (p name data : string) (w : World) :
  exists_at p w = true → exists_at p (with_file name data w) = true.
Proof.
  unfold exists_at, with_file, set_files. simpl. intros H.
  apply orb_true_iff in H as [H|H]; apply orb_true_iff; [left|by right].
  apply bool_decide_eq_true in H. apply bool_decide_eq_true.
  destruct (decide (name = p)) as [->|Hne].
  - rewrite lookup_insert_eq. by eexists.
  - by rewrite lookup_insert_ne.
Qed.

Lemma exists_at_false (p : string) (w : World) :
  exists_at p w = false ↔ files w !! p = None ∧ symlinks w !! p = None.
Proof.
  unfold exists_at. rewrite orb_false_iff, !bool_decide_eq_false.
  by rewrite <- !eq_None_not_Some.
Qed.

Section ReadThrough.

Variable E : Env.
Variable Join : string → string → string.
Variable decode : string → Config → Config * option Error.

(** [ReadConfig] on a home whose link leads to a file. *)
Lemma ReadConfig_through_link (w : World) (home cfile data : string) :
  os_UserHomeDir E = inr home →
  Join home ".fleek.yml" ∉ denied w →
  symlinks w !! Join home ".fleek.yml" = Some cfile →
  symlinks w !! cfile = None →
  cfile ∉ denied w →
  files w !! cfile = Some data →
  ReadConfig E Join decode w = decode data zero_Config.
Proof.
  intros Hhome Hd Hlink Hend Hdc Hfile. unfold ReadConfig, os_ReadFile.
  rewrite Hhome. cbv zeta. rewrite decide_False by done.
  cbn [resolve_links]. rewrite Hlink, Hend.
  by rewrite decide_False, Hfile.
Qed.

End ReadThrough.

(** The state [WriteSampleConfig] reaches at the call of [os.Symlink]. *)
Lemma WriteSampleConfig_to_symlink
      (E : Env) (location email name : string) (force : bool) (w w1 : World)
      (sys : System) (cfile n home : string) :
  NewSystem E name email = inr sys →
  Location E (sample_config location sys) = inr cfile →
  MakeFlakeDir E (sample_config location sys) w = (inr tt, w1) →
  cfile ∉ denied w1 →
  force = true ∨ exists_at cfile w1 = false →
  yaml_text E (sample_config location sys) = inr n →
  os_UserHomeDir E = inr home →
  WriteSampleConfig E location email name force w
  = match os_Symlink cfile (filepath_Join home ".fleek.yml") (with_file cfile n w1) with
    | (inl err, w2) => (inl err, w2)
    | (inr _, w2) => (inr tt, w2)
    end.
Proof.
  intros Hsys Hloc Hdir Hdc Hgo Hy Hhome. unfold WriteSampleConfig. unfold_calls.
  rewrite Hsys. simpl. rewrite Hloc. simpl. rewrite Hdir. simpl.
  unfold os_Stat. rewrite decide_False by done.
  assert (Hbranch : (force || is_ErrNotExist
                       (if exists_at cfile w1 then None else Some ErrNotExist)) = true).
  { destruct Hgo as [-> | ->]; [done|]. by destruct force. }
  destruct (exists_at cfile w1); simpl in *; rewrite Hbranch.
  all: unfold os_Create; rewrite decide_False by done; simpl;
    rewrite render_pure, Hy; simpl;
    unfold File_WriteString; simpl; rewrite lookup_insert_eq; simpl;
    rewrite Hhome; simpl;
    unfold with_file, set_files; simpl; rewrite insert_insert_eq;
    by destruct (os_Symlink _ _ _) as [[e|u] w2].
Qed.

(** X16: on a home that holds no configuration yet (no file at the
    location, nothing at [.fleek.yml] in the home directory),
    [WriteSampleConfig] writes the YAML text of the sample configuration
    at the location, links [.fleek.yml] in the home directory to it and
    returns nil, with or without the force flag; [ReadConfig] then reads,
    through the link, exactly the text that was written. *)
Theorem WriteSampleConfig_then_ReadConfig
        (E : Env) (decode : string → Config → Config * option Error)
        (location email name : string) (force : bool) (w w1 : World)
        (sys : System) (cfile n home : string) :
  NewSystem E name email = inr sys →
  Location E (sample_config location sys) = inr cfile →
  MakeFlakeDir E (sample_config location sys) w = (inr tt, w1) →
  yaml_text E (sample_config location sys) = inr n →
  os_UserHomeDir E = inr home →
  cfile ∉ denied w1 → exists_at cfile w1 = false →
  filepath_Join home ".fleek.yml" ∉ denied w1 →
  exists_at (filepath_Join home ".fleek.yml") w1 = false →
  filepath_Join home ".fleek.yml" ≠ cfile →
  let r := WriteSampleConfig E location email name force w in
  r = (inr tt,
       set_symlinks (<[filepath_Join home ".fleek.yml" := cfile]> (symlinks w1))
                    (with_file cfile n w1))
  ∧ ReadConfig E filepath_Join decode r.2 = decode n zero_Config.
Proof.
  intros Hsys Hloc Hdir Hy Hhome Hdc Hfresh Hds Hnolink Hne r.
  pose proof (proj1 (exists_at_false _ _) Hfresh) as [_ Hnl].
  apply exists_at_false in Hnolink as [Hnf Hns].
  assert (Hr : r = (inr tt,
       set_symlinks (<[filepath_Join home ".fleek.yml" := cfile]> (symlinks w1))
                    (with_file cfile n w1))).
  { subst r.
    rewrite (WriteSampleConfig_to_symlink E location email name force w w1 sys cfile n home)
      by (try done; by right).
    unfold os_Symlink. rewrite decide_False by done.
    assert (Hex : exists_at (filepath_Join home ".fleek.yml") (with_file cfile n w1) = false).
    { apply exists_at_false. simpl. split; [|done]. by rewrite lookup_insert_ne. }
    by rewrite Hex. }
  split; [done|]. rewrite Hr.
  apply (ReadConfig_through_link E filepath_Join decode _ home cfile n); simpl; try done.
  - apply lookup_insert_eq.
  - by rewrite lookup_insert_ne.
  - apply lookup_insert_eq.
Qed.

Lemma WriteSampleConfig_then_ReadConfig_witness :
  let r := WriteSampleConfig sample_env ".config/home-manager" "jane@example.com"
             "Jane Doe" false empty_world in
  r = (inr tt,
       set_symlinks (<["/home/jane/.fleek.yml" := "/home/jane/.config/home-manager/.fleek.yml"]>
                       (symlinks empty_world))
         (with_file "/home/jane/.config/home-manager/.fleek.yml"
                    "shell: bash; packages: helix; programs: dircolors" empty_world))
  ∧ ReadConfig sample_env filepath_Join sample_decode r.2
    = sample_decode "shell: bash; packages: helix; programs: dircolors" zero_Config.
Proof.
  apply (WriteSampleConfig_then_ReadConfig sample_env sample_decode
           ".config/home-manager" "jane@example.com" "Jane Doe" false
           empty_world empty_world linux_box
           "/home/jane/.config/home-manager/.fleek.yml"
           "shell: bash; packages: helix; programs: dircolors" "/home/jane");
    try reflexivity; try apply not_elem_of_empty.
  discriminate.
Defined.

(** X17: when something is already at [.fleek.yml] in the home directory,
    a call that gets to write (the force flag is set, or no file is at
    the location) replaces the text of the file at the location and then
    returns the error of [os.Symlink]: the file is written again, the
    link is not replaced, and the call fails. *)
Theorem WriteSampleConfig_existing_link
        (E : Env) (location email name : string) (force : bool) (w w1 : World)
        (sys : System) (cfile n home : string) :
  NewSystem E name email = inr sys →
  Location E (sample_config location sys) = inr cfile →
  MakeFlakeDir E (sample_config location sys) w = (inr tt, w1) →
  yaml_text E (sample_config location sys) = inr n →
  os_UserHomeDir E = inr home →
  cfile ∉ denied w1 →
  force = true ∨ exists_at cfile w1 = false →
  filepath_Join home ".fleek.yml" ∉ denied w1 →
  exists_at (filepath_Join home ".fleek.yml") w1 = true →
  WriteSampleConfig E location email name force w
  = (inl ErrExist, with_file cfile n w1).
Proof.
  intros Hsys Hloc Hdir Hy Hhome Hdc Hgo Hds Hlink.
  rewrite (WriteSampleConfig_to_symlink E location email name force w w1 sys cfile n home)
    by done.
  unfold os_Symlink. rewrite decide_False by done.
  by rewrite (exists_at_with_file _ _ _ _ Hlink).
Qed.

Lemma WriteSampleConfig_existing_link_witness :
  WriteSampleConfig sample_env ".config/home-manager" "jane@example.com"
    "Jane Doe" true settled_world
  = (inl ErrExist,
     with_file "/home/jane/.config/home-manager/.fleek.yml"
               "shell: bash; packages: helix; programs: dircolors" settled_world).
Proof.
  apply (WriteSampleConfig_existing_link sample_env
           ".config/home-manager" "jane@example.com" "Jane Doe" true
           settled_world settled_world linux_box
           "/home/jane/.config/home-manager/.fleek.yml"
           "shell: bash; packages: helix; programs: dircolors" "/home/jane");
    try reflexivity; try apply not_elem_of_empty.
  by left.
Defined.

(** X18: on a home whose [.fleek.yml] is a link to the location of the
    configuration, what [ReadConfig] reads after a successful [Save],
    [AddProgram] or [Eject] is exactly the YAML text of the configuration
    that operation wrote. *)
Theorem ReadConfig_after_write
        (E : Env) (Join : string → string → string)
        (decode : string → Config → Config * option Error)
        (name : string) (c : Config) (w : World) (home cfile n : string) :
  os_UserHomeDir E = inr home →
  Join home ".fleek.yml" ∉ denied w →
  symlinks w !! Join home ".fleek.yml" = Some cfile →
  symlinks w !! cfile = None →
  cfile ∉ denied w →
  (Location E c = inr cfile → yaml_text E c = inr n →
   (Save E (mkState c w)).1 = inr tt
   ∧ ReadConfig E Join decode (world (Save E (mkState c w)).2) = decode n zero_Config)
  ∧ (Validate c = None →
     Location E (set_Programs (Programs c ++ [name]) c) = inr cfile →
     yaml_text E (set_Programs (Programs c ++ [name]) c) = inr n →
     (AddProgram E name (mkState c w)).1 = inr tt
     ∧ ReadConfig E Join decode (world (AddProgram E name (mkState c w)).2)
       = decode n zero_Config)
  ∧ (Location E (set_Ejected true c) = inr cfile →
     yaml_text E (set_Ejected true c) = inr n →
     (Eject E (mkState c w)).1 = inr tt
     ∧ ReadConfig E Join decode (world (Eject E (mkState c w)).2) = decode n zero_Config).
Proof.
  intros Hhome Hds Hlink Hend Hdc.
  assert (Hread : ReadConfig E Join decode (with_file cfile n w) = decode n zero_Config).
  { apply (ReadConfig_through_link E Join decode _ home cfile n); simpl; try done.
    apply lookup_insert_eq. }
  split; [|split].
  - intros Hloc Hy. by rewrite Save_run, Hloc, decide_False, Hy.
  - intros Hv Hloc Hy. rewrite AddProgram_step. cbv zeta.
    by rewrite Hv, Save_run, Hloc, decide_False, Hy.
  - intros Hloc Hy. rewrite Eject_run. cbv zeta. by rewrite Hloc, Hy, decide_False.
Qed.

Lemma ReadConfig_after_write_witness :
  ReadConfig sample_env filepath_Join sample_decode
    (world (AddProgram sample_env "bat" (mkState sample settled_world)).2)
  = sample_decode "shell: zsh; packages: helix, htop; programs: dircolors, bat" zero_Config
  ∧ ReadConfig sample_env filepath_Join sample_decode
      (world (Eject sample_env (mkState sample settled_world)).2)
    = sample_decode "shell: zsh; packages: helix, htop; programs: dircolors; ejected"
                    zero_Config.
Proof.
  assert (Hno : ∀ p : string, p ∉ denied settled_world) by (intros p; apply not_elem_of_empty).
  split.
  - apply (proj1 (proj2 (ReadConfig_after_write sample_env filepath_Join sample_decode
                           "bat" sample settled_world "/home/jane"
                           "/home/jane/.config/home-manager/.fleek.yml"
                           "shell: zsh; packages: helix, htop; programs: dircolors, bat"
                           eq_refl (Hno _) eq_refl eq_refl (Hno _))));
      reflexivity.
  - apply (proj2 (proj2 (ReadConfig_after_write sample_env filepath_Join sample_decode
                           "bat" sample settled_world "/home/jane"
                           "/home/jane/.config/home-manager/.fleek.yml"
                           "shell: zsh; packages: helix, htop; programs: dircolors; ejected"
                           eq_refl (Hno _) eq_refl eq_refl (Hno _))));
      reflexivity.
Defined.

(** ** [ReadConfig] with nothing to read *)

(** X19: [ReadConfig] returns the zero configuration with the error, and
    never calls the decoder, when the home directory is unknown, when
    nothing is at [.fleek.yml] in it ([ErrNotExist]), when the link there
    leads to no file ([ErrNotExist]), and when the link leads to itself. *)
Theorem ReadConfig_nothing_to_read
        (E : Env) (Join : string → string → string)
        (decode : string → Config → Config * option Error) (w : World) :
  (∀ err, os_UserHomeDir E = inl err → ReadConfig E Join decode w = (zero_Config, Some err))
  ∧ (∀ home, os_UserHomeDir E = inr home →
       Join home ".fleek.yml" ∉ denied w →
       (exists_at (Join home ".fleek.yml") w = false →
        ReadConfig E Join decode w = (zero_Config, Some ErrNotExist))
       ∧ (∀ target, symlinks w !! Join home ".fleek.yml" = Some target →
            symlinks w !! target = None → target ∉ denied w → files w !! target = None →
            ReadConfig E Join decode w = (zero_Config, Some ErrNotExist))
       ∧ (symlinks w !! Join home ".fleek.yml" = Some (Join home ".fleek.yml") →
          ReadConfig E Join decode w
          = (zero_Config, Some (ErrOther "too many levels of symbolic links")))).
Proof.
  unfold ReadConfig, os_ReadFile. split.
  - by intros err ->.
  - intros home -> Hds. cbv zeta. rewrite decide_False by done.
    split; [|split].
    + intros Hno. apply exists_at_false in Hno as [Hnf Hns].
      cbn [resolve_links]. rewrite Hns. by rewrite decide_False, Hnf.
    + intros target Hlink Hend Hdt Hnf.
      cbn [resolve_links]. rewrite Hlink, Hend. by rewrite decide_False, Hnf.
    + intros Hself. repeat (cbn [resolve_links]; rewrite Hself). reflexivity.
Qed.

Lemma ReadConfig_nothing_to_read_witness :
  ReadConfig homeless_env filepath_Join sample_decode settled_world
  = (zero_Config, Some (ErrOther "$HOME is not defined"))
  ∧ ReadConfig sample_env filepath_Join sample_decode empty_world
    = (zero_Config, Some ErrNotExist).
Proof.
  split.
  - apply (proj1 (ReadConfig_nothing_to_read homeless_env filepath_Join sample_decode
                    settled_world)).
    reflexivity.
  - apply (proj1 (proj2 (ReadConfig_nothing_to_read sample_env filepath_Join sample_decode
                           empty_world) "/home/jane" eq_refl (not_elem_of_empty _))).
    reflexivity.
Defined.

(** ** [Clone] *)

Section Cloning.

Variable E : Env.
Variable Join : string → string → string.
Variable decode : string → Config → Config * option Error.
Variable git_clone : string → string → M World unit.

Lemma Clone_run (repo : string) (c : Config) (w : World) :
  Clone E Join git_clone repo (mkState c w) =
  match git_clone repo (UserFlakeDir E Join c) w with
  | (inl err, w1) => (inl err, mkState c w1)
  | (inr _, w1) =>
      match os_UserHomeDir E with
      | inl err => (inl err, mkState c w1)
      | inr home =>
          let '(r, w2) := os_Symlink (Join (UserFlakeDir E Join c) ".fleek.yml")
                                     (Join home ".fleek.yml") w1 in
          (r, mkState c w2)
      end
  end.
Proof.
  unfold Clone. unfold_calls.
  destruct (git_clone repo (UserFlakeDir E Join c) w) as [[err|u] w1]; [done|]. simpl.
  by destruct (os_UserHomeDir E) as [err|home].
Qed.

End Cloning.

(** X20: [Clone] makes the link only after the clone succeeded, and never
    over something that is already there.  When the clone command fails,
    [Clone] returns its error and the file system is the one the command
    left; when the clone succeeds and something is already at
    [.fleek.yml] in the home directory, [Clone] returns [ErrExist] and
    the link is as it was, the cloned directory staying in place. *)
Theorem Clone_never_replaces_link
        (E : Env) (Join : string → string → string)
        (git_clone : string → string → M World unit)
        (repo : string) (c : Config) (w w1 : World) :
  (∀ err, git_clone repo (UserFlakeDir E Join c) w = (inl err, w1) →
          Clone E Join git_clone repo (mkState c w) = (inl err, mkState c w1))
  ∧ (∀ home, git_clone repo (UserFlakeDir E Join c) w = (inr tt, w1) →
       os_UserHomeDir E = inr home →
       Join home ".fleek.yml" ∉ denied w1 →
       exists_at (Join home ".fleek.yml") w1 = true →
       Clone E Join git_clone repo (mkState c w) = (inl ErrExist, mkState c w1)).
Proof.
  split.
  - intros err Hgit. by rewrite Clone_run, Hgit.
  - intros home Hgit Hhome Hds Hex. rewrite Clone_run, Hgit, Hhome.
    unfold os_Symlink. by rewrite decide_False, Hex.
Qed.

Lemma Clone_never_replaces_link_witness :
  Clone sample_env filepath_Join failing_git "https://example.com/dots.git"
        (mkState sample settled_world)
  = (inl (ErrOther "exit status 128"), mkState sample settled_world)
  ∧ Clone sample_env filepath_Join sample_git "https://example.com/dots.git"
          (mkState sample settled_world)
    = (inl ErrExist,
       mkState sample
         (with_file "/home/jane/.config/home-manager/.fleek.yml"
                    "cloned from https://example.com/dots.git" settled_world)).
Proof.
  split.
  - apply (proj1 (Clone_never_replaces_link sample_env filepath_Join failing_git
                    "https://example.com/dots.git" sample settled_world settled_world)).
    reflexivity.
  - apply (proj2 (Clone_never_replaces_link sample_env filepath_Join sample_git
                    "https://example.com/dots.git" sample settled_world
                    (with_file "/home/jane/.config/home-manager/.fleek.yml"
                               "cloned from https://example.com/dots.git" settled_world))
             "/home/jane");
      try reflexivity.
    apply not_elem_of_empty.
Defined.

(** X21: on a home without [.fleek.yml], a [Clone] whose command
    succeeds links [.fleek.yml] in the home directory to the
    [.fleek.yml] of the flake directory and returns nil; when the clone
    brought a file there, [ReadConfig] then reads that file. *)
Theorem Clone_then_ReadConfig
        (E : Env) (Join : string → string → string)
        (decode : string → Config → Config * option Error)
        (git_clone : string → string → M World unit)
        (repo : string) (c : Config) (w w1 : World) (home data : string) :
  os_UserHomeDir E = inr home →
  git_clone repo (Join home (FlakeDir c)) w = (inr tt, w1) →
  Join home ".fleek.yml" ∉ denied w1 →
  exists_at (Join home ".fleek.yml") w1 = false →
  let yamlPath := Join (Join home (FlakeDir c)) ".fleek.yml" in
  Clone E Join git_clone repo (mkState c w)
  = (inr tt, mkState c (set_symlinks (<[Join home ".fleek.yml" := yamlPath]> (symlinks w1)) w1))
  ∧ (files w1 !! yamlPath = Some data → symlinks w1 !! yamlPath = None →
     yamlPath ∉ denied w1 →
     ReadConfig E Join decode (world (Clone E Join git_clone repo (mkState c w)).2)
     = decode data zero_Config).
Proof.
  intros Hhome Hgit Hds Hno yamlPath.
  assert (Hdir : UserFlakeDir E Join c = Join home (FlakeDir c)).
  { unfold UserFlakeDir. by rewrite Hhome. }
  assert (Hrun : Clone E Join git_clone repo (mkState c w)
                 = (inr tt, mkState c (set_symlinks
                      (<[Join home ".fleek.yml" := yamlPath]> (symlinks w1)) w1))).
  { rewrite Clone_run, Hdir, Hgit, Hhome. unfold os_Symlink.
    by rewrite decide_False, Hno. }
  split; [done|]. intros Hfile Hnl Hdy. rewrite Hrun.
  apply exists_at_false in Hno as [Hnf Hns].
  assert (Hne : Join home ".fleek.yml" ≠ yamlPath) by congruence.
  apply (ReadConfig_through_link E Join decode _ home yamlPath data); simpl; try done.
  - apply lookup_insert_eq.
  - by rewrite lookup_insert_ne.
Qed.

Lemma Clone_then_ReadConfig_witness :
  Clone sample_env filepath_Join sample_git "https://example.com/dots.git"
        (mkState sample empty_world)
  = (inr tt,
     mkState sample
       (set_symlinks
          (<["/home/jane/.fleek.yml" := "/home/jane/.config/home-manager/.fleek.yml"]> ∅)
          (with_file "/home/jane/.config/home-manager/.fleek.yml"
                     "cloned from https://example.com/dots.git" empty_world)))
  ∧ ReadConfig sample_env filepath_Join sample_decode
      (world (Clone sample_env filepath_Join sample_git "https://example.com/dots.git"
                (mkState sample empty_world)).2)
    = sample_decode "cloned from https://example.com/dots.git" zero_Config.
Proof.
  pose proof (Clone_then_ReadConfig sample_env filepath_Join sample_decode sample_git
                "https://example.com/dots.git" sample empty_world
                (with_file "/home/jane/.config/home-manager/.fleek.yml"
                           "cloned from https://example.com/dots.git" empty_world)
                "/home/jane" "cloned from https://example.com/dots.git"
                eq_refl eq_refl (not_elem_of_empty _) eq_refl) as [Hrun Hread].
  split; [exact Hrun|].
  apply Hread; [reflexivity | reflexivity | apply not_elem_of_empty].
Defined.
